(** * Johnson's rule for the two-machine flow shop (flow.py)

    A shallow embedding of the three computational functions of
    [flow.py] -- [johnsons_rule], [calculate_schedule] and
    [calculate_metrics] (with its helper [calculate_delays]) -- and of the
    validation branch of the "Calculate Optimal Sequence" handler,
    followed by the properties the specification states about them.

    Conventions of the embedding:
    - processing times and timestamps are Python integers, here [Z];
    - list positions and task indices are naturals (they come from
      [enumerate] and [range]); reading or writing a list outside its
      bounds raises [IndexError], as in Python; [calculate_schedule_int]
      is the simulator on arbitrary integer indices, where a negative
      index counts from the end;
    - Python exceptions are the [Raise] results of a small error monad;
    - a Python float is represented by the rational number it stands
      for, in [Q]: true division [/] of two integers raises
      [ZeroDivisionError] on a zero divisor and [OverflowError] when the
      quotient is beyond the range of a float, as does the conversion of
      an integer beyond that range; where a float results, the model
      keeps the exact rational and leaves out the rounding to 53 bits. *)

From Stdlib Require Import ZArith QArith Lqa String.
From stdpp Require Import base numbers list sorting strings pretty.

Local Open Scope Z_scope.

(** ** Python exceptions and the error monad *)

Inductive exn : Set :=
| IndexError          (* list index out of range *)
| ValueError          (* min() of an empty list, list.remove(x): x not in list *)
| ZeroDivisionError   (* division by zero *)
| OverflowError.      (* integer division result too large for a float,
                         int too large to convert to float *)

Inductive result (A : Type) : Type :=
| Ok (a : A)
| Raise (e : exn).

Arguments Ok {A} a.
Arguments Raise {A} e.

#[global] Instance result_ret : MRet result := fun A a => Ok a.
#[global] Instance result_bind : MBind result := fun A B f m =>
  match m with
  | Ok a => f a
  | Raise e => Raise e
  end.

#[global] Instance exn_eq_dec : EqDecision exn.
Proof. solve_decision. Defined.

(** ** Python list primitives *)

Section PyList.
Context {A : Type}.

(** [l[i]] for a position [i >= 0]. *)
Definition getitem (l : list A) (i : nat) : result A :=
  match l !! i with
  | Some x => Ok x
  | None => Raise IndexError
  end.

(** [l[-1]]. *)
Definition getitem_last (l : list A) : result A :=
  match last l with
  | Some x => Ok x
  | None => Raise IndexError
  end.

(** [l[i] = v] for a position [i >= 0]. *)
Definition setitem (l : list A) (i : nat) (v : A) : result (list A) :=
  if decide (i < length l)%nat then Ok (<[i := v]> l) else Raise IndexError.

(** [enumerate(l)], counting from [i]. *)
Fixpoint enumerate_from (i : nat) (l : list A) : list (nat * A) :=
  match l with
  | [] => []
  | x :: l' => (i, x) :: enumerate_from (S i) l'
  end.

Definition enumerate (l : list A) : list (nat * A) := enumerate_from 0 l.

(** The scan of [min(l, key=key)]: the running best element is replaced
    only by an element whose key is strictly smaller. *)
Fixpoint min_scan (key : A -> Z) (best : A) (l : list A) : A :=
  match l with
  | [] => best
  | x :: l' => min_scan key (if bool_decide (key x < key best) then x else best) l'
  end.

Definition py_min (key : A -> Z) (l : list A) : result A :=
  match l with
  | [] => Raise ValueError
  | x :: l' => Ok (min_scan key x l')
  end.

(** [l.remove(x)]: drops the first element equal to [x]. *)
Fixpoint list_remove `{!EqDecision A} (x : A) (l : list A) : result (list A) :=
  match l with
  | [] => Raise ValueError
  | y :: l' =>
      if decide (y = x) then Ok l'
      else l'' ← list_remove x l'; Ok (y :: l'')
  end.
End PyList.

(** [min(t)] of a two-element tuple [t]. *)
Definition pair_min (t : Z * Z) : Z := min_scan id t.1 [t.2].

(** ** The Sequencer: [johnsons_rule] *)

(** An element of the working list [tasks]: [(idx, (p1, p2))]. *)
Abbreviation task := (nat * (Z * Z))%type (only parsing).

(** The key of [min(tasks, key=lambda x: min(x[1]))]. *)
Definition task_key (x : task) : Z := pair_min x.2.

(** One pass through the body of [while tasks:]. *)
Definition johnsons_body (tasks : list task) (left right : list nat)
  : result (list task * list nat * list nat) :=
  '(idx, (p1, p2)) ← py_min task_key tasks;
  let '(left', right') :=
    if bool_decide (p1 <= p2) then (left ++ [idx], right) else (left, idx :: right) in
  tasks' ← list_remove (idx, (p1, p2)) tasks;
  Ok (tasks', left', right').

(** The loop [while tasks: ...], unrolled at most [fuel] times; [None]
    means that the fuel ran out with tasks still left. *)
Fixpoint johnsons_loop (fuel : nat) (tasks : list task) (left right : list nat)
  : option (result (list nat * list nat)) :=
  match tasks with
  | [] => Some (Ok (left, right))
  | _ :: _ =>
      match fuel with
      | O => None
      | S fuel' =>
          match johnsons_body tasks left right with
          | Ok (tasks', left', right') => johnsons_loop fuel' tasks' left' right'
          | Raise e => Some (Raise e)
          end
      end
  end.

(** The two partial sequences at the end of the loop. *)
Definition johnsons_lists (processing_times : list (Z * Z))
  : option (result (list nat * list nat)) :=
  johnsons_loop (length processing_times) (enumerate processing_times) [] [].

Definition johnsons_rule (processing_times : list (Z * Z))
  : option (result (list nat)) :=
  match johnsons_lists processing_times with
  | Some (Ok (l, r)) => Some (Ok (l ++ r))
  | Some (Raise e) => Some (Raise e)
  | None => None
  end.

Definition default_p1 : list Z := [3; 6; 2; 7; 6; 5; 5; 3; 6; 10].
Definition default_p2 : list Z := [5; 2; 8; 6; 6; 9; 4; 2; 8; 4].

(** ** The Schedule Simulator: [calculate_schedule] *)

(** The four arrays the loop of [calculate_schedule] updates in place. *)
Record timing : Type := Timing {
  start_m1 : list Z;
  finish_m1 : list Z;
  start_m2 : list Z;
  finish_m2 : list Z
}.

(** [a[i-1] if i > 0 else 0]. *)
Definition previous (a : list Z) (i : nat) : result Z :=
  if decide (0 < i)%nat then getitem a (i - 1) else Ok 0.

(** The body of [for i, idx in enumerate(sequence):], statement by
    statement; every right-hand side reads the arrays as they are when
    the statement runs. *)
Definition schedule_body (processing_times : list (Z * Z)) (i idx : nat)
    (st : timing) : result timing :=
  '(p1, p2) ← getitem processing_times idx;
  v ← previous (finish_m1 st) i;
  s1 ← setitem (start_m1 st) i v;
  a ← getitem s1 i;
  f1 ← setitem (finish_m1 st) i (a + p1);
  w ← previous (finish_m2 st) i;
  b ← getitem f1 i;
  s2 ← setitem (start_m2 st) i (Z.max w b);
  c ← getitem s2 i;
  f2 ← setitem (finish_m2 st) i (c + p2);
  Ok (Timing s1 f1 s2 f2).

(** The loop over [enumerate(sequence)], from position [i] on. *)
Fixpoint schedule_loop (processing_times : list (Z * Z)) (i : nat)
    (sequence : list nat) (st : timing) : result timing :=
  match sequence with
  | [] => Ok st
  | idx :: rest =>
      st' ← schedule_body processing_times i idx st;
      schedule_loop processing_times (S i) rest st'
  end.

Definition calculate_schedule (processing_times : list (Z * Z))
    (sequence : list nat) : result (list Z * list Z * list Z * list Z) :=
  let n := length sequence in
  let zeros := replicate n 0 in
  st ← schedule_loop processing_times 0 sequence (Timing zeros zeros zeros zeros);
  Ok (start_m1 st, finish_m1 st, start_m2 st, finish_m2 st).

(** *** Indices as Python integers

    In [processing_times[idx]] a negative [idx] counts from the end of
    the list.  [list_position] is the position such a subscript reads in
    a list of [n] entries, or the [IndexError] it raises. *)
Definition list_position (n : nat) (idx : Z) : result nat :=
  let j := if decide (idx < 0) then idx + Z.of_nat n else idx in
  if decide (0 <= j < Z.of_nat n) then Ok (Z.to_nat j) else Raise IndexError.

(** The loop of [calculate_schedule] over a sequence of integers: the
    subscript [processing_times[idx]] is resolved first, the rest of the
    body is [schedule_body]. *)
Fixpoint schedule_loop_int (processing_times : list (Z * Z)) (i : nat)
    (sequence : list Z) (st : timing) : result timing :=
  match sequence with
  | [] => Ok st
  | idx :: rest =>
      k ← list_position (length processing_times) idx;
      st' ← schedule_body processing_times i k st;
      schedule_loop_int processing_times (S i) rest st'
  end.

Definition calculate_schedule_int (processing_times : list (Z * Z))
    (sequence : list Z) : result (list Z * list Z * list Z * list Z) :=
  let n := length sequence in
  let zeros := replicate n 0 in
  st ← schedule_loop_int processing_times 0 sequence
         (Timing zeros zeros zeros zeros);
  Ok (start_m1 st, finish_m1 st, start_m2 st, finish_m2 st).

(** ** The Metrics Calculator: [calculate_delays], [calculate_metrics] *)

(** The loop [for i in range(1, len(start_m2)):] over the positions
    [range_], accumulating [delay_m2]. *)
Fixpoint delays_loop (start_m2 finish_m2 : list Z) (range_ : list nat)
    (delay_m2 : Z) : result Z :=
  match range_ with
  | [] => Ok delay_m2
  | i :: rest =>
      a ← getitem start_m2 i;
      b ← getitem finish_m2 (i - 1);
      let idle := a - b in
      delays_loop start_m2 finish_m2 rest
        (if bool_decide (idle > 0) then delay_m2 + idle else delay_m2)
  end.

(** [range(1, n)]. *)
Definition range_from_1 (n : nat) : list nat := seq 1 (n - 1).

Definition calculate_delays (start_m1 finish_m1 start_m2 finish_m2 : list Z)
    (makespan : Z) : result (Z * Z) :=
  last_m1 ← getitem_last finish_m1;
  let delay_m1 := makespan - last_m1 in
  delay_m2 ← getitem start_m2 0;
  delay_m2 ← delays_loop start_m2 finish_m2 (range_from_1 (length start_m2)) delay_m2;
  Ok (delay_m1, delay_m2).

(** The least magnitude that no longer rounds to a finite float: half
    way between the largest float [2^1024 - 2^971] and [2^1024]. *)
Definition float_limit : Z := 2 ^ 1024 - 2 ^ 970.

Arguments float_limit : simpl never.

(** [float(a)], as in the mixed arithmetic of an integer and a float. *)
Definition float_of_int (a : Z) : result Q :=
  if decide (float_limit <= Z.abs a) then Raise OverflowError
  else Ok (inject_Z a).

(** [a / b] on integers: the zero divisor is looked at first, then the
    size of the quotient, [|a / b| >= float_limit]. *)
Definition true_div (a b : Z) : result Q :=
  if decide (b = 0) then Raise ZeroDivisionError
  else if decide (float_limit * Z.abs b <= Z.abs a) then Raise OverflowError
  else Ok (inject_Z a / inject_Z b)%Q.

Definition calculate_metrics (finish_m1 finish_m2 start_m1 start_m2 : list Z)
  : result (Z * Z * Z * Q * Q) :=
  makespan ← getitem_last finish_m2;
  '(delay_m1, delay_m2) ← calculate_delays start_m1 finish_m1 start_m2 finish_m2 makespan;
  q1 ← true_div delay_m1 makespan;
  q2 ← true_div delay_m2 makespan;
  let average_delay := ((q1 + q2) / 2)%Q in
  let utilization := (1 - average_delay)%Q in
  Ok (makespan, delay_m1, delay_m2, average_delay, utilization).

(** ** The handler of the "Calculate Optimal Sequence" button *)

(** What the handler leaves on the page: the error box of [st.error], the
    results section, or the traceback of an uncaught exception. [Hang]
    stands for a sequencer loop that has not ended within its fuel. *)
Inductive page : Type :=
| ErrorBox (message : string)
| Results (sequence : list nat)
          (timings : list Z * list Z * list Z * list Z)
          (metrics : Z * Z * Z * Q * Q)
| Traceback (e : exn)
| Hang.

(** [any(p1 < 0 or p2 < 0 for p1, p2 in processing_times)]. *)
Definition any_negative (processing_times : list (Z * Z)) : bool :=
  existsb (fun '(p1, p2) => bool_decide (p1 < 0) || bool_decide (p2 < 0))
          processing_times.

(** The computation of the [else] branch. *)
Definition pipeline (processing_times : list (Z * Z)) : option (result page) :=
  match johnsons_rule processing_times with
  | None => None
  | Some (Raise e) => Some (Raise e)
  | Some (Ok sequence) =>
      Some ('(s1, f1, s2, f2) ← calculate_schedule processing_times sequence;
            m ← calculate_metrics f1 f2 s1 s2;
            Ok (Results sequence (s1, f1, s2, f2) m))
  end.

Definition on_calculate (processing_times : list (Z * Z)) : page :=
  if any_negative processing_times
  then ErrorBox "Processing times must be non-negative!"
  else match pipeline processing_times with
       | None => Hang
       | Some (Raise e) => Traceback e
       | Some (Ok p) => p
       end.

(** ** The task table (lines 9-28 and 110) *)

(** The two columns of processing times before they are cut to
    [num_tasks] rows: the default data for ten tasks, zeros otherwise. *)
Definition table_defaults (num_tasks : nat) : list Z * list Z :=
  if decide (num_tasks = 10%nat) then (default_p1, default_p2)
  else (replicate num_tasks 0, replicate num_tasks 0).

(** The data frame [df], column by column. *)
Record frame : Type := Frame {
  col_task : list string;
  col_p1 : list Z;
  col_p2 : list Z
}.

Definition build_frame (num_tasks : nat) : frame :=
  let '(p1, p2) := table_defaults num_tasks in
  Frame ((fun i => "Task " +:+ pretty (i + 1)%nat) <$> seq 0 num_tasks)
        (take num_tasks p1) (take num_tasks p2).

(** [processing_times = list(zip(...))] of line 110, from the frame the
    editor hands back. *)
Definition processing_times_of (edited_df : frame) : list (Z * Z) :=
  zip (col_p1 edited_df) (col_p2 edited_df).

(** ** The Gantt chart: [plot_gantt] *)

(** What [plot_gantt] puts on the axes: the bars of [ax.barh] and the
    labels of [ax.text].  The keyword arguments that are the same in
    every call (height, edge colour, alignment, font) are not recorded. *)
Inductive artist (color : Type) : Type :=
| Barh (y : Z) (width : Z) (left_ : Z) (c : color)
| Text (x : Q) (y : Z) (s : string).

Arguments Barh {color} y width left_ c.
Arguments Text {color} x y s.

Record figure (color : Type) : Type := Figure {
  figsize : Z * Z;
  artists : list (artist color);
  yticks : list Z;
  yticklabels : list string;
  xlabel : string;
  title : string;
  grid_axis : string
}.

Arguments Figure {color}.
Arguments artists {color}.

(** [f'T{idx+1}']. *)
Definition task_label (idx : nat) : string := "T" +:+ pretty (idx + 1)%nat.

(** [colors[i % len(colors)]]. *)
Definition cycle_color {color} (colors : list color) (i : nat) : result color :=
  if decide (length colors = 0%nat) then Raise ZeroDivisionError
  else getitem colors (i mod length colors).

(** [start[i] + (finish[i] - start[i])/2], the middle of a bar: the
    quotient is a true division of integers, and the sum converts
    [start[i]] to a float. *)
Definition bar_middle (start finish : list Z) (i : nat) : result Q :=
  a ← getitem start i;
  b ← getitem finish i;
  c ← getitem start i;
  q ← true_div (b - c) 2;
  x ← float_of_int a;
  Ok (x + q)%Q.

(** [ax.barh(y, finish[i] - start[i], left=start[i], color=color)]. *)
Definition bar_of {color} (y : Z) (start finish : list Z) (i : nat) (c : color)
  : result (artist color) :=
  b ← getitem finish i;
  a ← getitem start i;
  l ← getitem start i;
  Ok (Barh y (b - a) l c).

(** The body of the loop of [plot_gantt]: the four artists of the task at
    position [i]. *)
Definition gantt_body {color} (colors : list color)
    (start_m1 finish_m1 start_m2 finish_m2 : list Z) (i idx : nat)
  : result (list (artist color)) :=
  c ← cycle_color colors i;
  bar1 ← bar_of 1 start_m1 finish_m1 i c;
  x1 ← bar_middle start_m1 finish_m1 i;
  bar2 ← bar_of 0 start_m2 finish_m2 i c;
  x2 ← bar_middle start_m2 finish_m2 i;
  Ok [bar1; Text x1 1 (task_label idx); bar2; Text x2 0 (task_label idx)].

Fixpoint gantt_loop {color} (colors : list color)
    (start_m1 finish_m1 start_m2 finish_m2 : list Z)
    (i : nat) (sequence : list nat) (drawn : list (artist color))
  : result (list (artist color)) :=
  match sequence with
  | [] => Ok drawn
  | idx :: rest =>
      new ← gantt_body colors start_m1 finish_m1 start_m2 finish_m2 i idx;
      gantt_loop colors start_m1 finish_m1 start_m2 finish_m2 (S i) rest
        (drawn ++ new)
  end.

(** [plot_gantt]; [colors] is [plt.cm.Paired.colors]. *)
Definition plot_gantt {color} (colors : list color)
    (processing_times : list (Z * Z)) (sequence : list nat)
    (start_m1 finish_m1 start_m2 finish_m2 : list Z)
  : result (figure color) :=
  drawn ← gantt_loop colors start_m1 finish_m1 start_m2 finish_m2 0 sequence [];
  Ok (Figure (12, 4) drawn [0; 1] ["Processor 2"; "Processor 1"]
        "Time (hours)" "Gantt Chart - Johnson's Rule Optimal Schedule" "x").

(** * Vocabulary of the properties *)

(** Non-negative processing times, the precondition of the whole core. *)
Definition nonneg_times (processing_times : list (Z * Z)) : Prop :=
  Forall (fun t => 0 <= t.1 /\ 0 <= t.2) processing_times.

(** A sequence over the indices of a list of [n] tasks. *)
Definition valid_sequence (n : nat) (sequence : list nat) : Prop :=
  sequence ≡ₚ seq 0 n.

(** [first_min key x pre post]: [x] sits between [pre] and [post], every
    element before it has a strictly larger key and none after it has a
    smaller one. *)
Definition first_min {A} (key : A -> Z) (x : A) (pre post : list A) : Prop :=
  Forall (fun y => key x < key y) pre /\ Forall (fun y => key x <= key y) post.

(** The value of [a[i-1] if i > 0 else 0]. *)
Definition before (a : list Z) (i : nat) : Z :=
  match i with
  | O => 0
  | S j => a !!! j
  end.

(** The four arrays have [n] entries each. *)
Definition timing_length (n : nat) (st : timing) : Prop :=
  length (start_m1 st) = n /\ length (finish_m1 st) = n /\
  length (start_m2 st) = n /\ length (finish_m2 st) = n.

(** The timing equations at position [i] of a schedule of [sequence]. *)
Definition row_ok (processing_times : list (Z * Z)) (sequence : list nat)
    (st : timing) (i : nat) : Prop :=
  exists idx p1 p2,
    sequence !! i = Some idx /\ processing_times !! idx = Some (p1, p2) /\
    start_m1 st !!! i = before (finish_m1 st) i /\
    finish_m1 st !!! i = start_m1 st !!! i + p1 /\
    start_m2 st !!! i = Z.max (before (finish_m2 st) i) (finish_m1 st !!! i) /\
    finish_m2 st !!! i = start_m2 st !!! i + p2.

(** Two states agree at position [j] of every array. *)
Definition same_at (j : nat) (st st' : timing) : Prop :=
  start_m1 st' !!! j = start_m1 st !!! j /\
  finish_m1 st' !!! j = finish_m1 st !!! j /\
  start_m2 st' !!! j = start_m2 st !!! j /\
  finish_m2 st' !!! j = finish_m2 st !!! j.

(** The sum of a list of integers. *)
Definition Zsum (l : list Z) : Z := foldr Z.add 0 l.

(** The idle gap of machine 2 before position [i >= 1], clamped at 0:
    [max(0, start_m2[i] - finish_m2[i-1])]. *)
Definition idle_gap (s2 f2 : list Z) (i : nat) : Z :=
  Z.max 0 (s2 !!! i - f2 !!! (i - 1)%nat).

(** The delay of machine 2 as the specification writes it:
    [start_m2[0]] plus the sum of the clamped gaps at [i = 1 .. n-1]. *)
Definition delay_m2_formula (s2 f2 : list Z) : Z :=
  s2 !!! 0%nat + Zsum (idle_gap s2 f2 <$> seq 1 (length s2 - 1)).


(** ** Orders, sums and the two-machine recurrence *)

(** The times of the tasks of a sequence, in the order of the sequence. *)
Definition jobs_of (processing_times : list (Z * Z)) (sequence : list nat)
  : list (Z * Z) :=
  (fun idx => processing_times !!! idx) <$> sequence.

(** [before_by time i j]: task [i] has the smaller [time], or the same
    [time] and the smaller index. *)
Definition before_by (time : nat -> Z) (i j : nat) : Prop :=
  time i < time j \/ (time i = time j /\ (i < j)%nat).

(** The same order on the entries [(idx, (p1, p2))] of the working list,
    with the key of the sequencer as time. *)
Definition task_before (x y : task) : Prop :=
  task_key x < task_key y \/ (task_key x = task_key y /\ (x.1 < y.1)%nat).

(** What the sequencer keeps true of the remaining [tasks] and of the
    entries [L], [R] whose indices are in [left] and [right]. *)
Definition sequencer_inv (tasks L R : list task) : Prop :=
  Forall (fun t : task => t.2.1 <= t.2.2) L /\
  Forall (fun t : task => t.2.2 < t.2.1) R /\
  StronglySorted task_before L /\
  StronglySorted (flip task_before) R /\
  (forall y t, y ∈ L ++ R -> t ∈ tasks -> task_before y t) /\
  StronglySorted (fun x y : task => (x.1 < y.1)%nat) tasks.

(** The state of the two machines after a task: the times at which
    machine 1 and machine 2 become free.  It is the recurrence of the body
    of [calculate_schedule], read on the pair
    [(finish_m1[i-1], finish_m2[i-1])]. *)
Definition advance (free : Z * Z) (job : Z * Z) : Z * Z :=
  (free.1 + job.1, Z.max free.2 (free.1 + job.1) + job.2).

Definition run (free : Z * Z) (jobs : list (Z * Z)) : Z * Z :=
  foldl advance free jobs.

(** Johnson's condition for putting job [x] before job [y]:
    [min(x.p1, y.p2) <= min(y.p1, x.p2)]. *)
Definition johnson_le (x y : Z * Z) : Prop :=
  Z.min x.1 y.2 <= Z.min y.1 x.2.

(** The bars drawn on track [y], as pairs [(left, width)] in drawing
    order, and the labels written on it. *)
Definition bars_on {color} (y : Z) (drawn : list (artist color)) : list (Z * Z) :=
  omap (fun a => match a with
                 | Barh y' w l _ => if decide (y' = y) then Some (l, w) else None
                 | Text _ _ _ => None
                 end) drawn.

Definition labels_on {color} (y : Z) (drawn : list (artist color)) : list string :=
  omap (fun a => match a with
                 | Barh _ _ _ _ => None
                 | Text _ y' s => if decide (y' = y) then Some s else None
                 end) drawn.

(** What [calculate_metrics] needs of its arrays to get as far as its
    divisions: [finish_m1], [finish_m2] and [start_m2] are not empty and
    [finish_m2] is at most one entry shorter than [start_m2].  Nothing is
    asked of [start_m1]. *)
Definition metrics_indexable (f1 f2 s2 : list Z) : Prop :=
  f1 <> [] /\ f2 <> [] /\ s2 <> [] /\ (length s2 <= S (length f2))%nat.

(** The quotient [a / b] is within the range of a float. *)
Definition in_float_range (a b : Z) : Prop :=
  Z.abs a < float_limit * Z.abs b.

#[global] Instance in_float_range_dec (a b : Z) : Decision (in_float_range a b).
Proof. unfold in_float_range. apply _. Defined.

(** * Properties *)

(** ** Sequencer *)

Lemma pair_min_min (t : Z * Z) : pair_min t = Z.min t.1 t.2.
Proof.
  unfold pair_min; simpl. unfold id. case_bool_decide; lia.
Qed.

Lemma min_scan_first_min {A} (key : A -> Z) (l : list A) (best : A) :
  exists pre post,
    best :: l = pre ++ min_scan key best l :: post /\
    first_min key (min_scan key best l) pre post.
Proof.
  unfold first_min. revert best. induction l as [|x l IH]; intros best; simpl.
  - exists [], []. split; [done|]. split; constructor.
  - destruct (IH (if bool_decide (key x < key best) then x else best))
      as (pre & post & Heq & Hpre & Hpost).
    set (m := min_scan key _ l) in *. clearbody m.
    case_bool_decide as Hlt.
    + exists (best :: pre), post. split; [by rewrite Heq|].
      split; [|done]. constructor; [|done].
      assert (key m <= key x); [|lia].
      destruct pre as [|y pre]; simplify_eq/=; [lia|].
      apply Forall_cons in Hpre as [? _]. lia.
    + destruct pre as [|y pre]; simplify_eq/=.
      * exists [], (x :: post). split; [done|].
        split; [constructor|]. constructor; [lia|done].
      * apply Forall_cons in Hpre as [? Hpre].
        exists (y :: x :: pre), post. split; [done|].
        split; [|done]. constructor; [done|]. constructor; [lia|done].
Qed.

Lemma list_remove_middle {A} `{!EqDecision A} (x : A) (pre post : list A) :
  x ∉ pre -> list_remove x (pre ++ x :: post) = Ok (pre ++ post).
Proof.
  induction pre as [|y pre IH]; intros Hnin; simpl.
  - by rewrite decide_True.
  - apply not_elem_of_cons in Hnin as [Hne Hnin].
    rewrite decide_False by done. by rewrite IH.
Qed.

(** The body of the loop selects the first task of minimal key, takes it
    out of [tasks] and files its index left or right. *)
Lemma johnsons_body_spec (tasks : list task) (left right : list nat) :
  tasks <> [] ->
  exists pre post idx p1 p2,
    tasks = pre ++ (idx, (p1, p2)) :: post /\
    first_min task_key (idx, (p1, p2)) pre post /\
    johnsons_body tasks left right =
      Ok (pre ++ post,
          if bool_decide (p1 <= p2) then left ++ [idx] else left,
          if bool_decide (p1 <= p2) then right else idx :: right).
Proof.
  destruct tasks as [|t tasks]; [done|]. intros _.
  destruct (min_scan_first_min task_key tasks t) as (pre & post & Heq & Hfm).
  unfold johnsons_body. cbn [py_min mbind result_bind].
  destruct (min_scan task_key t tasks) as [idx [p1 p2]] eqn:Hm.
  exists pre, post, idx, p1, p2. split; [done|]. split; [done|].
  rewrite Heq, list_remove_middle.
  - by case_bool_decide.
  - intros Hin. destruct Hfm as [Hpre _].
    rewrite Forall_forall in Hpre. specialize (Hpre _ Hin). lia.
Qed.

Lemma johnsons_loop_spec (fuel : nat) (tasks : list task) (left right : list nat) :
  (length tasks <= fuel)%nat ->
  exists l r,
    johnsons_loop fuel tasks left right = Some (Ok (l, r)) /\
    l ++ r ≡ₚ left ++ right ++ tasks.*1.
Proof.
  revert tasks left right.
  induction fuel as [|fuel IH]; intros tasks left right Hlen.
  - destruct tasks; simpl in *; [|lia].
    exists left, right. by rewrite app_nil_r.
  - destruct tasks as [|t tasks].
    { exists left, right. by rewrite app_nil_r. }
    destruct (johnsons_body_spec (t :: tasks) left right)
      as (pre & post & idx & p1 & p2 & Heq & _ & Hbody); [done|].
    cbn [johnsons_loop]. rewrite Hbody.
    destruct (IH (pre ++ post)
                (if bool_decide (p1 <= p2) then left ++ [idx] else left)
                (if bool_decide (p1 <= p2) then right else idx :: right))
      as (l & r & Hloop & Hperm).
    { apply (f_equal length) in Heq. rewrite length_app in *. simpl in *. lia. }
    exists l, r. split; [done|]. rewrite Hperm, Heq.
    rewrite !fmap_app, fmap_cons. simpl.
    case_bool_decide.
    + solve_Permutation.
    + solve_Permutation.
Qed.

Lemma enumerate_from_fst {A} (l : list A) (i : nat) :
  (enumerate_from i l).*1 = seq i (length l).
Proof.
  revert i. induction l as [|x l IH]; intros i; simpl; [done|]. by rewrite IH.
Qed.

Lemma enumerate_from_length {A} (l : list A) (i : nat) :
  length (enumerate_from i l) = length l.
Proof.
  revert i. induction l as [|x l IH]; intros i; simpl; [done|]. by rewrite IH.
Qed.

(** The sequencer returns, and what it returns is a rearrangement of the
    indices [0 .. n-1]. *)
Lemma johnsons_rule_perm (processing_times : list (Z * Z)) :
  exists sequence,
    johnsons_rule processing_times = Some (Ok sequence) /\
    sequence ≡ₚ seq 0 (length processing_times).
Proof.
  unfold johnsons_rule, johnsons_lists.
  destruct (johnsons_loop_spec (length processing_times)
              (enumerate processing_times) [] [])
    as (l & r & -> & Hperm).
  { unfold enumerate. by rewrite enumerate_from_length. }
  exists (l ++ r). split; [done|].
  rewrite Hperm. simpl. unfold enumerate. by rewrite enumerate_from_fst.
Qed.

Lemma filter_eq_absent (i : nat) (l : list nat) :
  i ∉ l -> filter (fun j => j = i) l = [].
Proof.
  induction l as [|x l IH]; intros Hnin; [done|].
  apply not_elem_of_cons in Hnin as [Hne Hnin].
  rewrite filter_cons_False by congruence. auto.
Qed.

Lemma NoDup_occurs_once (i : nat) (l : list nat) :
  NoDup l -> i ∈ l -> length (filter (fun j => j = i) l) = 1%nat.
Proof.
  induction 1 as [|x l Hx Hnd IH]; intros Hin.
  - by apply elem_of_nil in Hin.
  - destruct (decide (x = i)) as [->|Hne].
    + rewrite filter_cons_True by done. simpl. by rewrite filter_eq_absent.
    + rewrite filter_cons_False by done.
      apply elem_of_cons in Hin as [->|Hin]; [done|]. auto.
Qed.

(** C1. For every list of pairs with non-negative entries, [johnsons_rule]
    returns a sequence that is a permutation of the input indices: its
    length is the task count, it has no duplicates, every index
    [0 .. n-1] occurs in it exactly once and nothing else occurs in it. *)
Theorem johnsons_rule_permutation (processing_times : list (Z * Z)) :
  nonneg_times processing_times ->
  exists sequence,
    johnsons_rule processing_times = Some (Ok sequence) /\
    length sequence = length processing_times /\
    sequence ≡ₚ seq 0 (length processing_times) /\
    NoDup sequence /\
    (forall i, (i < length processing_times)%nat ->
               length (filter (fun j => j = i) sequence) = 1%nat) /\
    (forall i, i ∈ sequence -> (i < length processing_times)%nat).
Proof.
  intros _.
  destruct (johnsons_rule_perm processing_times) as (sequence & Hrun & Hperm).
  exists sequence. split; [done|].
  split; [by rewrite Hperm, length_seq|]. split; [done|].
  split; [rewrite Hperm; apply NoDup_seq|]. split.
  - intros i Hi. rewrite Hperm.
    apply NoDup_occurs_once; [apply NoDup_seq|].
    apply elem_of_seq. lia.
  - intros i Hi. rewrite Hperm in Hi. apply elem_of_seq in Hi. lia.
Qed.

Lemma johnsons_rule_permutation_witness :
  nonneg_times [(4, 2); (1, 3)] /\
  exists sequence,
    johnsons_rule [(4, 2); (1, 3)] = Some (Ok sequence) /\
    length sequence = 2%nat /\
    sequence ≡ₚ seq 0 2 /\
    NoDup sequence /\
    (forall i, (i < 2)%nat -> length (filter (fun j => j = i) sequence) = 1%nat) /\
    (forall i, i ∈ sequence -> (i < 2)%nat).
Proof.
  assert (H : nonneg_times [(4, 2); (1, 3)]) by (repeat constructor; simpl; lia).
  split; [exact H|]. exact (johnsons_rule_permutation _ H).
Defined.

(** C5. At every iteration of the sequencer -- every run of the loop body
    on a non-empty list of remaining tasks -- the selected task is the
    first one, in the current order of the remaining list, whose smaller
    processing time is the global minimum: every task before it has a
    strictly larger minimum, no task after it a smaller one.  It is taken
    out of the remaining list, appended to [left] exactly when
    [p1 <= p2] and put at the front of [right] exactly when [p1 > p2];
    the loop goes on with the lists so obtained. *)
Theorem johnsons_tie_break (tasks : list task) (left right : list nat) :
  tasks <> [] ->
  exists pre post idx p1 p2 left' right',
    tasks = pre ++ (idx, (p1, p2)) :: post /\
    Forall (fun y : task => Z.min p1 p2 < Z.min y.2.1 y.2.2) pre /\
    Forall (fun y : task => Z.min p1 p2 <= Z.min y.2.1 y.2.2) post /\
    johnsons_body tasks left right = Ok (pre ++ post, left', right') /\
    (p1 <= p2 <-> left' = left ++ [idx] /\ right' = right) /\
    (p1 > p2 <-> left' = left /\ right' = idx :: right) /\
    (forall fuel, johnsons_loop (S fuel) tasks left right =
                  johnsons_loop fuel (pre ++ post) left' right').
Proof.
  intros Hne.
  destruct (johnsons_body_spec tasks left right Hne)
    as (pre & post & idx & p1 & p2 & Heq & [Hpre Hpost] & Hbody).
  exists pre, post, idx, p1, p2.
  exists (if bool_decide (p1 <= p2) then left ++ [idx] else left),
         (if bool_decide (p1 <= p2) then right else idx :: right).
  split; [done|].
  split. { eapply Forall_impl; [exact Hpre|]. intros y.
           unfold task_key. rewrite !pair_min_min. done. }
  split. { eapply Forall_impl; [exact Hpost|]. intros y.
           unfold task_key. rewrite !pair_min_min. done. }
  split; [done|].
  split; [|split].
  - case_bool_decide; split; try done.
    intros [Hl _]. apply (f_equal length) in Hl.
    rewrite length_app in Hl. simpl in Hl. lia.
  - case_bool_decide; split; try done; try lia.
    intros [_ Hr]. apply (f_equal length) in Hr. simpl in Hr. lia.
  - intros fuel. destruct tasks as [|t tasks]; [done|].
    cbn [johnsons_loop]. by rewrite Hbody.
Qed.

Lemma johnsons_tie_break_witness :
  let tasks : list task := [(0%nat, (4, 2)); (1%nat, (2, 5)); (2%nat, (3, 2))] in
  tasks <> [] /\
  exists pre post idx p1 p2 left' right',
    tasks = pre ++ (idx, (p1, p2)) :: post /\
    Forall (fun y : task => Z.min p1 p2 < Z.min y.2.1 y.2.2) pre /\
    Forall (fun y : task => Z.min p1 p2 <= Z.min y.2.1 y.2.2) post /\
    johnsons_body tasks [] [] = Ok (pre ++ post, left', right') /\
    (p1 <= p2 <-> left' = [] ++ [idx] /\ right' = []) /\
    (p1 > p2 <-> left' = [] /\ right' = [idx]) /\
    (forall fuel, johnsons_loop (S fuel) tasks [] [] =
                  johnsons_loop fuel (pre ++ post) left' right').
Proof.
  intros tasks.
  assert (H : tasks <> []) by discriminate.
  split; [exact H|]. exact (johnsons_tie_break tasks [] [] H).
Defined.

(** ** Schedule Simulator *)

Lemma getitem_lt {A} `{!Inhabited A} (l : list A) (i : nat) :
  (i < length l)%nat -> getitem l i = Ok (l !!! i).
Proof.
  intros Hi. unfold getitem. by rewrite list_lookup_lookup_total_lt.
Qed.

Lemma getitem_Some {A} (l : list A) (i : nat) (x : A) :
  l !! i = Some x -> getitem l i = Ok x.
Proof. intros H. unfold getitem. by rewrite H. Qed.

Lemma setitem_lt {A} (l : list A) (i : nat) (v : A) :
  (i < length l)%nat -> setitem l i v = Ok (<[i := v]> l).
Proof. intros Hi. unfold setitem. by rewrite decide_True. Qed.

Lemma previous_lt (a : list Z) (i : nat) :
  (i <= length a)%nat -> previous a i = Ok (before a i).
Proof.
  intros Hi. unfold previous. case_decide as Hpos.
  - destruct i as [|j]; [lia|]. cbn [before].
    replace (S j - 1)%nat with j by lia. apply getitem_lt. lia.
  - by replace i with 0%nat by lia.
Qed.

Lemma schedule_body_spec (processing_times : list (Z * Z)) (n i idx : nat)
    (st : timing) (p1 p2 : Z) :
  timing_length n st -> (i < n)%nat ->
  processing_times !! idx = Some (p1, p2) ->
  let a := before (finish_m1 st) i in
  let c := Z.max (before (finish_m2 st) i) (a + p1) in
  schedule_body processing_times i idx st =
    Ok (Timing (<[i := a]> (start_m1 st)) (<[i := a + p1]> (finish_m1 st))
               (<[i := c]> (start_m2 st)) (<[i := c + p2]> (finish_m2 st))).
Proof.
  intros (H1 & H2 & H3 & H4) Hi Hpt a c. unfold schedule_body.
  rewrite (getitem_Some _ _ _ Hpt). cbn [mbind result_bind].
  rewrite !previous_lt by lia. cbn [mbind result_bind].
  repeat (first [ rewrite setitem_lt by lia
                | rewrite getitem_lt by (rewrite length_insert; lia);
                  rewrite list_lookup_total_insert_eq by lia ];
          cbn [mbind result_bind]).
  done.
Qed.

Lemma before_same (a a' : list Z) (i : nat) :
  (forall j, (j < i)%nat -> a' !!! j = a !!! j) -> before a' i = before a i.
Proof. intros H. destruct i as [|j]; simpl; [done|]. apply H. lia. Qed.

Section ScheduleLoop.
Variable processing_times : list (Z * Z).
Variable sequence : list nat.
Hypothesis in_range :
  Forall (fun idx => (idx < length processing_times)%nat) sequence.

Let n := length sequence.

(** The loop from position [i] on: it ends without an exception, leaves
    the entries before [i] as they were and establishes the timing
    equations at every position from [i] on. *)
Lemma schedule_loop_spec (rest : list nat) :
  forall (i : nat) (st : timing),
    timing_length n st -> drop i sequence = rest ->
    exists st',
      schedule_loop processing_times i rest st = Ok st' /\
      timing_length n st' /\
      (forall j, (j < i)%nat -> same_at j st st') /\
      (forall j, (i <= j < n)%nat -> row_ok processing_times sequence st' j).
Proof.
  induction rest as [|idx rest IH]; intros i st Hlen Hdrop.
  - exists st. split; [done|]. split; [done|].
    split; [by intros j _|].
    intros j Hj. apply (f_equal length) in Hdrop.
    rewrite length_drop in Hdrop. simpl in Hdrop. subst n. lia.
  - assert (Hi : sequence !! i = Some idx).
    { rewrite <-(Nat.add_0_r i), <-lookup_drop, Hdrop. done. }
    assert (Hin : (i < n)%nat) by (eapply lookup_lt_Some; exact Hi).
    assert (Hidx : (idx < length processing_times)%nat).
    { rewrite Forall_lookup in in_range. by eapply in_range. }
    destruct (lookup_lt_is_Some_2 _ _ Hidx) as [[p1 p2] Hpt].
    pose proof (schedule_body_spec processing_times n i idx st p1 p2
                  Hlen Hin Hpt) as Hbody.
    cbv zeta in Hbody. cbn [schedule_loop]. rewrite Hbody.
    cbn [mbind result_bind].
    set (a := before (finish_m1 st) i) in *.
    set (c := Z.max (before (finish_m2 st) i) (a + p1)) in *.
    set (st1 := Timing _ _ _ _) in *.
    destruct Hlen as (H1 & H2 & H3 & H4).
    destruct (IH (S i) st1) as (st' & Hrun & Hlen' & Hsame & Hrows).
    { unfold timing_length, st1; simpl. by rewrite !length_insert. }
    { rewrite (drop_S _ _ _ Hi) in Hdrop. congruence. }
    assert (Hold : forall j, (j < i)%nat -> same_at j st st').
    { intros j Hj. destruct (Hsame j) as (E1 & E2 & E3 & E4); [lia|].
      unfold same_at. rewrite E1, E2, E3, E4. unfold st1; simpl.
      by rewrite !list_lookup_total_insert_ne by lia. }
    exists st'. split; [done|]. split; [done|]. split; [done|].
    intros j Hj. destruct (decide (j = i)) as [->|Hne]; [|apply Hrows; lia].
    destruct (Hsame i) as (E1 & E2 & E3 & E4); [lia|].
    exists idx, p1, p2. split; [done|]. split; [done|].
    rewrite E1, E2, E3, E4. unfold st1; simpl.
    rewrite !list_lookup_total_insert_eq by lia.
    rewrite (before_same (finish_m1 st) (finish_m1 st'))
      by (intros j Hj'; apply (Hold j Hj')).
    rewrite (before_same (finish_m2 st) (finish_m2 st'))
      by (intros j Hj'; apply (Hold j Hj')).
    done.
Qed.

(** The simulator returns four arrays of [n] entries that satisfy the
    timing equations at every position. *)
Lemma calculate_schedule_spec :
  exists s1 f1 s2 f2,
    calculate_schedule processing_times sequence = Ok (s1, f1, s2, f2) /\
    timing_length n (Timing s1 f1 s2 f2) /\
    forall i, (i < n)%nat ->
              row_ok processing_times sequence (Timing s1 f1 s2 f2) i.
Proof.
  unfold calculate_schedule. fold n.
  set (zeros := replicate n 0).
  destruct (schedule_loop_spec sequence 0 (Timing zeros zeros zeros zeros))
    as (st' & Hrun & Hlen & _ & Hrows).
  { unfold timing_length, zeros; simpl. by rewrite !length_replicate. }
  { done. }
  rewrite Hrun. cbn [mbind result_bind]. destruct st' as [s1 f1 s2 f2].
  exists s1, f1, s2, f2. split; [done|]. split; [done|].
  intros i Hi. apply Hrows. lia.
Qed.
End ScheduleLoop.

Lemma valid_sequence_length (n : nat) (sequence : list nat) :
  valid_sequence n sequence -> length sequence = n.
Proof. intros H. by rewrite H, length_seq. Qed.

Lemma valid_sequence_in_range (n : nat) (sequence : list nat) :
  valid_sequence n sequence -> Forall (fun idx => (idx < n)%nat) sequence.
Proof.
  intros H. rewrite Forall_forall. intros idx Hin.
  rewrite H in Hin. apply elem_of_seq in Hin. lia.
Qed.

(** C2. For every list of non-negative processing times and every valid
    permutation sequence over its indices, [calculate_schedule] returns
    four arrays of the length of the sequence such that at every position
    [i], with [(p1, p2)] the times of task [sequence[i]]:
    [start_m1[i]] is 0 for [i = 0] and [finish_m1[i-1]] otherwise;
    [finish_m1[i] = start_m1[i] + p1];
    [start_m2[i] = max(finish_m2[i-1] if i > 0 else 0, finish_m1[i])];
    [finish_m2[i] = start_m2[i] + p2]. *)
Theorem calculate_schedule_equations
    (processing_times : list (Z * Z)) (sequence : list nat) :
  nonneg_times processing_times ->
  valid_sequence (length processing_times) sequence ->
  exists s1 f1 s2 f2,
    calculate_schedule processing_times sequence = Ok (s1, f1, s2, f2) /\
    length s1 = length sequence /\ length f1 = length sequence /\
    length s2 = length sequence /\ length f2 = length sequence /\
    forall i, (i < length sequence)%nat ->
      exists idx p1 p2,
        sequence !! i = Some idx /\ processing_times !! idx = Some (p1, p2) /\
        s1 !!! i = match i with O => 0 | S j => f1 !!! j end /\
        f1 !!! i = s1 !!! i + p1 /\
        s2 !!! i = Z.max (match i with O => 0 | S j => f2 !!! j end) (f1 !!! i) /\
        f2 !!! i = s2 !!! i + p2.
Proof.
  intros _ Hvalid.
  destruct (calculate_schedule_spec processing_times sequence
              (valid_sequence_in_range _ _ Hvalid))
    as (s1 & f1 & s2 & f2 & Hrun & (H1 & H2 & H3 & H4) & Hrows).
  exists s1, f1, s2, f2. repeat (split; [done|]).
  intros i Hi. exact (Hrows i Hi).
Qed.

Lemma calculate_schedule_equations_witness :
  let processing_times := [(4, 2); (1, 3)] in
  let sequence := [1; 0]%nat in
  (nonneg_times processing_times /\
   valid_sequence (length processing_times) sequence) /\
  exists s1 f1 s2 f2,
    calculate_schedule processing_times sequence = Ok (s1, f1, s2, f2) /\
    length s1 = length sequence /\ length f1 = length sequence /\
    length s2 = length sequence /\ length f2 = length sequence /\
    forall i, (i < length sequence)%nat ->
      exists idx p1 p2,
        sequence !! i = Some idx /\ processing_times !! idx = Some (p1, p2) /\
        s1 !!! i = match i with O => 0 | S j => f1 !!! j end /\
        f1 !!! i = s1 !!! i + p1 /\
        s2 !!! i = Z.max (match i with O => 0 | S j => f2 !!! j end) (f1 !!! i) /\
        f2 !!! i = s2 !!! i + p2.
Proof.
  intros processing_times sequence.
  assert (H1 : nonneg_times processing_times)
    by (repeat constructor; simpl; lia).
  assert (H2 : valid_sequence (length processing_times) sequence)
    by (apply perm_swap).
  split; [exact (conj H1 H2)|].
  exact (calculate_schedule_equations processing_times sequence H1 H2).
Defined.

(** ** Metrics Calculator *)

Lemma getitem_last_lt {A} `{!Inhabited A} (l : list A) :
  (1 <= length l)%nat -> getitem_last l = Ok (l !!! (length l - 1)%nat).
Proof.
  intros Hl. unfold getitem_last. rewrite last_lookup.
  replace (pred (length l)) with (length l - 1)%nat by lia.
  by rewrite list_lookup_lookup_total_lt by lia.
Qed.

Lemma delays_loop_spec (s2 f2 : list Z) (range_ : list nat) :
  forall acc : Z,
    Forall (fun i => (1 <= i < length s2)%nat /\ (i <= length f2)%nat) range_ ->
    delays_loop s2 f2 range_ acc = Ok (acc + Zsum (idle_gap s2 f2 <$> range_)).
Proof.
  induction range_ as [|i rest IH]; intros acc Hr.
  - simpl. f_equal. lia.
  - apply Forall_cons in Hr as [[Hi Hi'] Hr]. cbn [delays_loop].
    rewrite !getitem_lt by lia. cbn [mbind result_bind].
    rewrite IH by done. f_equal.
    rewrite fmap_cons. unfold idle_gap at 2.
    change (Zsum (?x :: ?l)) with (x + Zsum l).
    case_bool_decide; lia.
Qed.

Lemma calculate_delays_spec (s1 f1 s2 f2 : list Z) (n : nat) (makespan : Z) :
  (1 <= n)%nat -> length f1 = n -> length s2 = n -> length f2 = n ->
  calculate_delays s1 f1 s2 f2 makespan =
    Ok (makespan - f1 !!! (n - 1)%nat, delay_m2_formula s2 f2).
Proof.
  intros Hn H1 H2 H3. unfold calculate_delays.
  rewrite getitem_last_lt by lia. cbn [mbind result_bind].
  rewrite getitem_lt by lia. cbn [mbind result_bind].
  unfold range_from_1. rewrite delays_loop_spec.
  - rewrite H1. done.
  - rewrite Forall_forall. intros i Hi. apply elem_of_seq in Hi. lia.
Qed.

(** With [n >= 1] entries in the arrays, only the two divisions of
    [calculate_metrics] can still raise. *)
Lemma calculate_metrics_divisions (s1 f1 s2 f2 : list Z) (n : nat) :
  (1 <= n)%nat -> length f1 = n -> length s2 = n -> length f2 = n ->
  let makespan := f2 !!! (n - 1)%nat in
  let delay_m1 := makespan - f1 !!! (n - 1)%nat in
  let delay_m2 := delay_m2_formula s2 f2 in
  calculate_metrics f1 f2 s1 s2 =
    (q1 ← true_div delay_m1 makespan;
     q2 ← true_div delay_m2 makespan;
     Ok (makespan, delay_m1, delay_m2, ((q1 + q2) / 2)%Q, (1 - (q1 + q2) / 2)%Q)).
Proof.
  intros Hn H2 H3 H4. cbv zeta. unfold calculate_metrics.
  rewrite getitem_last_lt by lia. cbn [mbind result_bind]. rewrite H4.
  rewrite (calculate_delays_spec s1 f1 s2 f2 n) by done. done.
Qed.

Lemma float_limit_large : 2 <= float_limit.
Proof. apply Z.leb_le. vm_compute. reflexivity. Qed.

Lemma true_div_ok (a b : Z) :
  b <> 0 -> in_float_range a b ->
  true_div a b = Ok (inject_Z a / inject_Z b)%Q.
Proof.
  intros Hb Hr. unfold true_div, in_float_range in *.
  rewrite decide_False by done. rewrite decide_False by lia. done.
Qed.

Lemma true_div_overflow (a b : Z) :
  b <> 0 -> ~ in_float_range a b -> true_div a b = Raise OverflowError.
Proof.
  intros Hb Hr. unfold true_div, in_float_range in *.
  rewrite decide_False by done. rewrite decide_True by lia. done.
Qed.

(** A part of a positive whole is well within the range of a float. *)
Lemma in_float_range_part (d m : Z) :
  0 <= d <= m -> 0 < m -> in_float_range d m.
Proof.
  intros Hd Hm. unfold in_float_range.
  pose proof float_limit_large. rewrite !Z.abs_eq by lia. nia.
Qed.

Lemma calculate_metrics_nonzero (s1 f1 s2 f2 : list Z) (n : nat) :
  (1 <= n)%nat -> length f1 = n -> length s2 = n -> length f2 = n ->
  f2 !!! (n - 1)%nat <> 0 ->
  let makespan := f2 !!! (n - 1)%nat in
  let delay_m1 := makespan - f1 !!! (n - 1)%nat in
  let delay_m2 := delay_m2_formula s2 f2 in
  in_float_range delay_m1 makespan ->
  in_float_range delay_m2 makespan ->
  let average_delay :=
    ((inject_Z delay_m1 / inject_Z makespan +
      inject_Z delay_m2 / inject_Z makespan) / 2)%Q in
  calculate_metrics f1 f2 s1 s2 =
    Ok (makespan, delay_m1, delay_m2, average_delay, (1 - average_delay)%Q).
Proof.
  intros Hn H2 H3 H4 Hm makespan delay_m1 delay_m2 Hr1 Hr2. cbv zeta.
  rewrite (calculate_metrics_divisions s1 f1 s2 f2 n) by done.
  fold makespan delay_m1 delay_m2.
  rewrite !true_div_ok by done. done.
Qed.


Lemma calculate_metrics_zero (s1 f1 s2 f2 : list Z) (n : nat) :
  (1 <= n)%nat -> length f1 = n -> length s2 = n -> length f2 = n ->
  f2 !!! (n - 1)%nat = 0 ->
  calculate_metrics f1 f2 s1 s2 = Raise ZeroDivisionError.
Proof.
  intros Hn H2 H3 H4 Hm.
  rewrite (calculate_metrics_divisions s1 f1 s2 f2 n) by done.
  unfold true_div. by rewrite !decide_True.
Qed.




Lemma Zsum_app (l1 l2 : list Z) : Zsum (l1 ++ l2) = Zsum l1 + Zsum l2.
Proof. induction l1 as [|x l1 IH]; simpl; [done|]. rewrite IH. lia. Qed.

(** ** Consequences of the timing equations for non-negative times *)

Section TimingFacts.
Variable processing_times : list (Z * Z).
Variable sequence : list nat.
Variables s1 f1 s2 f2 : list Z.
Variable n : nat.

Hypothesis times_nonneg : nonneg_times processing_times.
Hypothesis lengths : timing_length n (Timing s1 f1 s2 f2).
Hypothesis rows :
  forall i, (i < n)%nat ->
            row_ok processing_times sequence (Timing s1 f1 s2 f2) i.

Lemma row_facts (i : nat) :
  (i < n)%nat ->
  exists p1 p2,
    0 <= p1 /\ 0 <= p2 /\
    s1 !!! i = before f1 i /\ f1 !!! i = s1 !!! i + p1 /\
    s2 !!! i = Z.max (before f2 i) (f1 !!! i) /\ f2 !!! i = s2 !!! i + p2.
Proof.
  intros Hi.
  destruct (rows i Hi) as (idx & p1 & p2 & _ & Hpt & E1 & E2 & E3 & E4).
  exists p1, p2. simpl in *.
  unfold nonneg_times in times_nonneg. rewrite Forall_lookup in times_nonneg.
  destruct (times_nonneg _ _ Hpt) as [? ?]. simpl in *. done.
Qed.

(** Within a row: [start_m1 <= finish_m1 <= start_m2 <= finish_m2]. *)
Lemma row_order (i : nat) :
  (i < n)%nat ->
  s1 !!! i <= f1 !!! i /\ f1 !!! i <= s2 !!! i /\ s2 !!! i <= f2 !!! i.
Proof.
  intros Hi. destruct (row_facts i Hi) as (p1 & p2 & ? & ? & ? & ? & ? & ?).
  lia.
Qed.

Lemma start_m1_nonneg (i : nat) : (i < n)%nat -> 0 <= s1 !!! i.
Proof.
  induction i as [|i IH]; intros Hi;
    destruct (row_facts _ Hi) as (p1 & p2 & ? & ? & E & _).
  - simpl in E. lia.
  - simpl in E. pose proof (row_order i ltac:(lia)). specialize (IH ltac:(lia)).
    lia.
Qed.

Lemma finish_m2_step (i : nat) : (S i < n)%nat -> f2 !!! i <= f2 !!! (S i).
Proof.
  intros Hi. destruct (row_facts _ Hi) as (p1 & p2 & ? & ? & ? & ? & E & ?).
  simpl in E. lia.
Qed.

Lemma finish_m2_mono (i j : nat) :
  (i <= j < n)%nat -> f2 !!! i <= f2 !!! j.
Proof.
  induction j as [|j IH]; intros Hij.
  - by replace i with 0%nat by lia.
  - destruct (decide (i = S j)) as [->|Hne]; [done|].
    etrans; [apply IH; lia|]. apply finish_m2_step. lia.
Qed.

(** Every timestamp lies between 0 and the last finish on machine 2. *)
Lemma timestamps_bounded (i : nat) :
  (i < n)%nat ->
  let m := f2 !!! (n - 1)%nat in
  (0 <= s1 !!! i <= m) /\ (0 <= f1 !!! i <= m) /\
  (0 <= s2 !!! i <= m) /\ (0 <= f2 !!! i <= m).
Proof.
  intros Hi m.
  pose proof (row_order i Hi). pose proof (start_m1_nonneg i Hi).
  pose proof (finish_m2_mono i (n - 1) ltac:(lia)). subst m. lia.
Qed.

(** The delay accumulated up to position [k] never exceeds the start of
    task [k] on machine 2. *)
Lemma delay_prefix_bounds (k : nat) :
  (k < n)%nat ->
  0 <= s2 !!! 0%nat + Zsum (idle_gap s2 f2 <$> seq 1 k) <= s2 !!! k.
Proof.
  induction k as [|k IH]; intros Hk.
  - simpl. pose proof (timestamps_bounded 0 Hk). simpl in *. lia.
  - rewrite seq_S, fmap_app, Zsum_app. simpl.
    specialize (IH ltac:(lia)).
    destruct (row_facts _ Hk) as (p1 & p2 & ? & ? & ? & ? & E & ?).
    simpl in E. pose proof (row_order k ltac:(lia)).
    unfold idle_gap in IH |- *. replace (S k - 0)%nat with (S k) by lia.
    replace (S k - 1)%nat with k by lia. lia.
Qed.

Lemma delay_m2_bounds :
  (1 <= n)%nat -> 0 <= delay_m2_formula s2 f2 <= f2 !!! (n - 1)%nat.
Proof.
  intros Hn. unfold delay_m2_formula.
  destruct lengths as (_ & _ & Hs2 & _). simpl in Hs2. rewrite Hs2.
  pose proof (delay_prefix_bounds (n - 1) ltac:(lia)).
  pose proof (row_order (n - 1) ltac:(lia)). lia.
Qed.

Lemma delay_m1_bounds :
  (1 <= n)%nat ->
  0 <= f2 !!! (n - 1)%nat - f1 !!! (n - 1)%nat <= f2 !!! (n - 1)%nat.
Proof.
  intros Hn. pose proof (timestamps_bounded (n - 1) ltac:(lia)).
  pose proof (row_order (n - 1) ltac:(lia)). simpl in *. lia.
Qed.
(** In a simulated schedule of non-negative times both delays are parts
    of the makespan, so neither division leaves the range of a float. *)
Lemma schedule_metrics_return :
  (1 <= n)%nat -> f2 !!! (n - 1)%nat <> 0 ->
  let makespan := f2 !!! (n - 1)%nat in
  let delay_m1 := makespan - f1 !!! (n - 1)%nat in
  let delay_m2 := delay_m2_formula s2 f2 in
  let average_delay :=
    ((inject_Z delay_m1 / inject_Z makespan +
      inject_Z delay_m2 / inject_Z makespan) / 2)%Q in
  calculate_metrics f1 f2 s1 s2 =
    Ok (makespan, delay_m1, delay_m2, average_delay, (1 - average_delay)%Q).
Proof.
  intros Hn Hm. pose proof (delay_m1_bounds Hn) as Hd1.
  pose proof (delay_m2_bounds Hn) as Hd2.
  destruct lengths as (H1 & H2 & H3 & H4). simpl in *.
  apply (calculate_metrics_nonzero s1 f1 s2 f2 n); try done;
    apply in_float_range_part; lia.
Qed.
End TimingFacts.

Lemma lookup_total_of_elem (l : list Z) (v : Z) :
  v ∈ l -> exists i, (i < length l)%nat /\ l !!! i = v.
Proof.
  intros Hin. apply list_elem_of_lookup in Hin as [i Hi].
  exists i. split; [by eapply lookup_lt_Some|by apply list_lookup_total_correct].
Qed.

(** C10. For non-negative processing times and a valid permutation
    sequence, the [finish_m2] array of [calculate_schedule] is
    nondecreasing in position and every value of the four arrays is at
    most [finish_m2[n-1]]; that last entry is the makespan
    [calculate_metrics] reads (and returns, when it is not zero), so the
    makespan is the latest timestamp of the whole schedule. *)
Theorem makespan_is_latest
    (processing_times : list (Z * Z)) (sequence : list nat) :
  nonneg_times processing_times ->
  valid_sequence (length processing_times) sequence ->
  let n := length sequence in
  exists s1 f1 s2 f2,
    calculate_schedule processing_times sequence = Ok (s1, f1, s2, f2) /\
    (forall i j, (i <= j < n)%nat -> f2 !!! i <= f2 !!! j) /\
    (forall v, v ∈ s1 \/ v ∈ f1 \/ v ∈ s2 \/ v ∈ f2 -> v <= f2 !!! (n - 1)%nat) /\
    ((1 <= n)%nat ->
     getitem_last f2 = Ok (f2 !!! (n - 1)%nat) /\
     (f2 !!! (n - 1)%nat <> 0 ->
      exists delay_m1 delay_m2 average_delay utilization,
        calculate_metrics f1 f2 s1 s2 =
          Ok (f2 !!! (n - 1)%nat, delay_m1, delay_m2, average_delay, utilization))).
Proof.
  intros Hnn Hvalid n.
  destruct (calculate_schedule_spec processing_times sequence
              (valid_sequence_in_range _ _ Hvalid))
    as (s1 & f1 & s2 & f2 & Hrun & Hlen & Hrows).
  fold n in Hlen, Hrows.
  exists s1, f1, s2, f2. split; [done|]. split; [|split].
  - intros i j Hij.
    by apply (finish_m2_mono processing_times sequence s1 f1 s2 f2 n).
  - destruct Hlen as (H1 & H2 & H3 & H4). simpl in *.
    assert (Hb := timestamps_bounded processing_times sequence s1 f1 s2 f2 n
                    Hnn Hrows).
    intros v [Hv|[Hv|[Hv|Hv]]];
      apply lookup_total_of_elem in Hv as (i & Hi & <-);
      destruct (Hb i ltac:(lia)) as (? & ? & ? & ?); lia.
  - intros Hn. destruct Hlen as (H1 & H2 & H3 & H4). simpl in *.
    split.
    + rewrite getitem_last_lt by lia. by rewrite H4.
    + intros Hm. do 4 eexists.
      by apply (schedule_metrics_return processing_times sequence s1 f1 s2 f2 n).
Qed.

Lemma makespan_is_latest_witness :
  let processing_times := [(4, 2); (1, 3)] in
  let sequence := [1; 0]%nat in
  (nonneg_times processing_times /\
   valid_sequence (length processing_times) sequence) /\
  exists s1 f1 s2 f2,
    calculate_schedule processing_times sequence = Ok (s1, f1, s2, f2) /\
    (forall i j, (i <= j < 2)%nat -> f2 !!! i <= f2 !!! j) /\
    (forall v, v ∈ s1 \/ v ∈ f1 \/ v ∈ s2 \/ v ∈ f2 -> v <= f2 !!! 1%nat) /\
    ((1 <= 2)%nat ->
     getitem_last f2 = Ok (f2 !!! 1%nat) /\
     (f2 !!! 1%nat <> 0 ->
      exists delay_m1 delay_m2 average_delay utilization,
        calculate_metrics f1 f2 s1 s2 =
          Ok (f2 !!! 1%nat, delay_m1, delay_m2, average_delay, utilization))).
Proof.
  intros processing_times sequence.
  assert (H1 : nonneg_times processing_times)
    by (repeat constructor; simpl; lia).
  assert (H2 : valid_sequence (length processing_times) sequence)
    by (apply perm_swap).
  split; [exact (conj H1 H2)|].
  exact (makespan_is_latest processing_times sequence H1 H2).
Defined.

(** A ratio [d / m] with [0 <= d <= m] and [0 < m] lies in [[0, 1]]. *)
Lemma ratio_bounds (d m : Z) :
  0 <= d <= m -> 0 < m ->
  (0 <= inject_Z d / inject_Z m <= 1)%Q.
Proof.
  intros [Hd Hdm] Hm.
  assert (Hm' : (0 < inject_Z m)%Q) by (change 0%Q with (inject_Z 0); by rewrite <-Zlt_Qlt).
  split.
  - apply Qle_shift_div_l; [done|]. rewrite Qmult_0_l.
    change 0%Q with (inject_Z 0). by rewrite <-Zle_Qle.
  - apply Qle_shift_div_r; [done|]. rewrite Qmult_1_l. by rewrite <-Zle_Qle.
Qed.

Lemma utilization_bounds (x y : Q) :
  (0 <= x <= 1)%Q -> (0 <= y <= 1)%Q ->
  (0 <= 1 - (x + y) / 2 <= 1)%Q.
Proof.
  intros [? ?] [? ?]. unfold Qdiv. change (/ 2)%Q with (1 # 2)%Q. split; lra.
Qed.

(** C4. For every non-empty list of non-negative processing times the
    three stages run through -- [johnsons_rule] returns a sequence,
    [calculate_schedule] returns the timing arrays, whose last
    [finish_m2] entry is the makespan -- and whenever that makespan is
    strictly positive, [calculate_metrics] returns a utilization in the
    closed interval [[0, 1]]. *)
Theorem utilization_in_unit_interval (processing_times : list (Z * Z)) :
  processing_times <> [] ->
  nonneg_times processing_times ->
  exists sequence s1 f1 s2 f2 makespan,
    johnsons_rule processing_times = Some (Ok sequence) /\
    calculate_schedule processing_times sequence = Ok (s1, f1, s2, f2) /\
    getitem_last f2 = Ok makespan /\
    (0 < makespan ->
     exists delay_m1 delay_m2 average_delay utilization,
       calculate_metrics f1 f2 s1 s2 =
         Ok (makespan, delay_m1, delay_m2, average_delay, utilization) /\
       on_calculate processing_times =
         Results sequence (s1, f1, s2, f2)
           (makespan, delay_m1, delay_m2, average_delay, utilization) /\
       (0 <= utilization <= 1)%Q).
Proof.
  intros Hne Hnn.
  destruct (johnsons_rule_perm processing_times) as (sequence & Hseq & Hperm).
  destruct (calculate_schedule_spec processing_times sequence
              (valid_sequence_in_range _ _ Hperm))
    as (s1 & f1 & s2 & f2 & Hrun & Hlen & Hrows).
  assert (Hn : (1 <= length sequence)%nat).
  { rewrite (valid_sequence_length _ _ Hperm).
    destruct processing_times; [done|simpl; lia]. }
  set (n := length sequence) in *.
  pose proof (delay_m1_bounds processing_times sequence s1 f1 s2 f2 n
                Hnn Hrows Hn) as Hd1.
  pose proof (delay_m2_bounds processing_times sequence s1 f1 s2 f2 n
                Hnn Hlen Hrows Hn) as Hd2.
  destruct Hlen as (H1 & H2 & H3 & H4). simpl in *.
  exists sequence, s1, f1, s2, f2, (f2 !!! (n - 1)%nat).
  split; [done|]. split; [done|].
  split. { rewrite getitem_last_lt by lia. by rewrite H4. }
  intros Hpos.
  pose proof (calculate_metrics_nonzero s1 f1 s2 f2 n Hn H2 H3 H4
                ltac:(lia) ltac:(apply in_float_range_part; lia)
                ltac:(apply in_float_range_part; lia)) as Hm.
  cbv zeta in Hm. do 4 eexists. split; [exact Hm|]. split.
  - unfold on_calculate, pipeline, any_negative.
    replace (existsb _ processing_times) with false.
    + rewrite Hseq, Hrun. cbn [mbind result_bind]. rewrite Hm. done.
    + symmetry. apply not_true_is_false. intros Hex.
      apply existsb_exists in Hex as ([p1 p2] & Hin & Hneg).
      unfold nonneg_times in Hnn. rewrite Forall_forall in Hnn.
      apply list_elem_of_In in Hin. specialize (Hnn _ Hin). simpl in Hnn.
      apply orb_true_iff in Hneg as [Hneg|Hneg];
        apply bool_decide_eq_true in Hneg; lia.
  - apply utilization_bounds; by apply ratio_bounds.
Qed.

Lemma utilization_in_unit_interval_witness :
  let processing_times := [(4, 2); (1, 3)] in
  (processing_times <> [] /\ nonneg_times processing_times) /\
  exists sequence s1 f1 s2 f2 makespan,
    johnsons_rule processing_times = Some (Ok sequence) /\
    calculate_schedule processing_times sequence = Ok (s1, f1, s2, f2) /\
    getitem_last f2 = Ok makespan /\
    (0 < makespan ->
     exists delay_m1 delay_m2 average_delay utilization,
       calculate_metrics f1 f2 s1 s2 =
         Ok (makespan, delay_m1, delay_m2, average_delay, utilization) /\
       on_calculate processing_times =
         Results sequence (s1, f1, s2, f2)
           (makespan, delay_m1, delay_m2, average_delay, utilization) /\
       (0 <= utilization <= 1)%Q).
Proof.
  intros processing_times.
  assert (H1 : processing_times <> []) by discriminate.
  assert (H2 : nonneg_times processing_times)
    by (repeat constructor; simpl; lia).
  split; [exact (conj H1 H2)|].
  exact (utilization_in_unit_interval processing_times H1 H2).
Defined.

(** The makespan of the two-task example is 7, so the bound above is not
    an empty promise there. *)
Example two_tasks_page :
  on_calculate [(4, 2); (1, 3)] =
    Results [1; 0]%nat ([0; 1], [1; 5], [1; 5], [4; 7])
            (7, 2, 2, (28 # 98)%Q, (70 # 98)%Q).
Proof. reflexivity. Qed.

(** A schedule of non-negative times that ends at time 0 has only tasks
    of zero length. *)
Lemma zero_makespan_zero_times
    (processing_times : list (Z * Z)) (sequence : list nat)
    (s1 f1 s2 f2 : list Z) :
  nonneg_times processing_times ->
  valid_sequence (length processing_times) sequence ->
  calculate_schedule processing_times sequence = Ok (s1, f1, s2, f2) ->
  getitem_last f2 = Ok 0 ->
  Forall (fun t => t = (0, 0)) processing_times.
Proof.
  intros Hnn Hvalid Hrun Hlast.
  destruct (calculate_schedule_spec processing_times sequence
              (valid_sequence_in_range _ _ Hvalid))
    as (s1' & f1' & s2' & f2' & Hrun' & Hlen & Hrows).
  rewrite Hrun in Hrun'. simplify_eq.
  pose proof (valid_sequence_length _ _ Hvalid) as Hn.
  set (n := length sequence) in *.
  apply Forall_lookup. intros idx t Ht.
  assert (Hidx : (idx < n)%nat) by (rewrite Hn; by eapply lookup_lt_Some).
  assert (Hin : idx ∈ sequence).
  { rewrite Hvalid. apply elem_of_seq. lia. }
  apply list_elem_of_lookup in Hin as [i Hi].
  assert (Hi' : (i < n)%nat) by (by eapply lookup_lt_Some).
  assert (Hm : f2' !!! (n - 1)%nat = 0).
  { destruct Hlen as (_ & _ & _ & H4). simpl in H4.
    rewrite getitem_last_lt, H4 in Hlast by lia. congruence. }
  pose proof (timestamps_bounded processing_times sequence s1' f1' s2' f2' n
                Hnn Hrows i Hi') as Hb.
  cbv zeta in Hb. rewrite Hm in Hb.
  destruct (Hrows i Hi') as (idx' & p1 & p2 & Hs & Hpt & _ & E2 & _ & E4).
  simpl in *. simplify_eq. f_equal; lia.
Qed.

(** C7. When the makespan [finish_m2[-1]] is zero, [calculate_metrics]
    never returns a value: it raises an exception, and for arrays of one
    common length that exception is [ZeroDivisionError].  In a schedule
    computed from non-negative processing times the makespan is zero only
    when every processing time is zero. *)
Theorem zero_makespan_raises (f1 f2 s1 s2 : list Z) :
  getitem_last f2 = Ok 0 ->
  (exists e, calculate_metrics f1 f2 s1 s2 = Raise e) /\
  (length f1 = length f2 -> length s2 = length f2 ->
   calculate_metrics f1 f2 s1 s2 = Raise ZeroDivisionError) /\
  (forall processing_times sequence,
     nonneg_times processing_times ->
     valid_sequence (length processing_times) sequence ->
     calculate_schedule processing_times sequence = Ok (s1, f1, s2, f2) ->
     Forall (fun t => t = (0, 0)) processing_times).
Proof.
  intros Hlast. split; [|split].
  - unfold calculate_metrics. rewrite Hlast. cbn [mbind result_bind].
    destruct (calculate_delays s1 f1 s2 f2 0) as [[d1 d2]|e];
      cbn [mbind result_bind]; eauto.
  - intros H1 H2.
    assert (Hn : (1 <= length f2)%nat).
    { destruct f2; [discriminate|simpl; lia]. }
    apply (calculate_metrics_zero s1 f1 s2 f2 (length f2)); try done.
    rewrite getitem_last_lt in Hlast by done. congruence.
  - intros processing_times sequence Hnn Hvalid Hrun.
    by apply (zero_makespan_zero_times processing_times sequence s1 f1 s2 f2).
Qed.

Lemma zero_makespan_raises_witness :
  getitem_last [0; 0] = Ok 0 /\
  (exists e, calculate_metrics [0; 0] [0; 0] [0; 0] [0; 0] = Raise e) /\
  calculate_metrics [0; 0] [0; 0] [0; 0] [0; 0] = Raise ZeroDivisionError.
Proof.
  assert (H : getitem_last [0; 0] = Ok 0) by reflexivity.
  destruct (zero_makespan_raises [0; 0] [0; 0] [0; 0] [0; 0] H)
    as (Hraise & Hzero & _).
  split; [exact H|]. split; [exact Hraise|].
  apply Hzero; reflexivity.
Defined.

(** ** The handler *)

Lemma any_negative_true (processing_times : list (Z * Z)) :
  Exists (fun t => t.1 < 0 \/ t.2 < 0) processing_times ->
  any_negative processing_times = true.
Proof.
  intros Hex. apply Exists_exists in Hex as ([p1 p2] & Hin & Hneg).
  unfold any_negative. apply existsb_exists. exists (p1, p2).
  split; [by apply list_elem_of_In|]. simpl in Hneg.
  apply orb_true_iff. destruct Hneg; [left|right]; by apply bool_decide_eq_true.
Qed.

(** C6. When at least one task has a negative processing time on either
    machine, the handler leaves exactly one error box with the one fixed
    message, whatever the number and place of the offending rows; none of
    [johnsons_rule], [calculate_schedule], [calculate_metrics] is run and
    the page shows neither results nor a traceback. *)
Theorem negative_input_rejected (processing_times : list (Z * Z)) :
  Exists (fun t => t.1 < 0 \/ t.2 < 0) processing_times ->
  on_calculate processing_times =
    ErrorBox "Processing times must be non-negative!" /\
  (forall sequence timings metrics,
     on_calculate processing_times <> Results sequence timings metrics) /\
  (forall e, on_calculate processing_times <> Traceback e).
Proof.
  intros Hex. unfold on_calculate.
  rewrite (any_negative_true _ Hex). by repeat split.
Qed.

Lemma negative_input_rejected_witness :
  let processing_times := [(3, 5); (-1, 2); (4, -7)] in
  Exists (fun t => t.1 < 0 \/ t.2 < 0) processing_times /\
  on_calculate processing_times =
    ErrorBox "Processing times must be non-negative!".
Proof.
  intros processing_times.
  assert (H : Exists (fun t => t.1 < 0 \/ t.2 < 0) processing_times).
  { apply Exists_cons_tl, Exists_cons_hd. left. simpl. lia. }
  split; [exact H|]. exact (proj1 (negative_input_rejected processing_times H)).
Defined.

(** ** The empty task list *)


(** ** The default data *)

(** C9. On the default data the sequencer ends with
    [left = [2; 0; 5; 4; 8]] and [right = [3; 9; 6; 7; 1]]: task 2 is at
    the front of the left list and first in the sequence, task 9 is in
    the right list.  The sequence is a permutation of [0 .. 9], and the
    makespan returned by [calculate_metrics] is the entry [finish_m2[9]]
    of the simulator's arrays for that sequence, 56. *)
Theorem default_scenario :
  let processing_times := zip default_p1 default_p2 in
  exists l r sequence s1 f1 s2 f2 makespan delay_m1 delay_m2 average_delay utilization,
    johnsons_lists processing_times = Some (Ok (l, r)) /\
    l = [2; 0; 5; 4; 8]%nat /\ r = [3; 9; 6; 7; 1]%nat /\
    head l = Some 2%nat /\ (9%nat ∈ r) /\ (9%nat ∉ l) /\
    johnsons_rule processing_times = Some (Ok sequence) /\
    sequence = l ++ r /\ head sequence = Some 2%nat /\
    sequence ≡ₚ seq 0 10 /\
    calculate_schedule processing_times sequence = Ok (s1, f1, s2, f2) /\
    calculate_metrics f1 f2 s1 s2 =
      Ok (makespan, delay_m1, delay_m2, average_delay, utilization) /\
    f2 !! 9%nat = Some makespan /\ makespan = 56.
Proof.
  intros processing_times.
  destruct (johnsons_rule_perm processing_times) as (sequence & Hrun & Hperm).
  assert (Hseq : johnsons_rule processing_times =
                 Some (Ok [2; 0; 5; 4; 8; 3; 9; 6; 7; 1]%nat))
    by (vm_compute; reflexivity).
  rewrite Hseq in Hrun. simplify_eq.
  exists [2; 0; 5; 4; 8]%nat, [3; 9; 6; 7; 1]%nat.
  exists [2; 0; 5; 4; 8; 3; 9; 6; 7; 1]%nat.
  exists [0; 2; 5; 10; 16; 22; 29; 39; 44; 47], [2; 5; 10; 16; 22; 29; 39; 44; 47; 53].
  exists [2; 10; 15; 24; 30; 38; 44; 48; 52; 54], [10; 15; 24; 30; 38; 44; 48; 52; 54; 56].
  exists 56, 3, 2, (280 # 6272)%Q, (5992 # 6272)%Q.
  split; [vm_compute; reflexivity|]. split; [done|]. split; [done|].
  split; [done|].
  split; [apply list_elem_of_In; simpl; tauto|].
  split; [intros H; apply list_elem_of_In in H; simpl in H; intuition lia|].
  split; [done|]. split; [done|]. split; [done|]. split; [exact Hperm|].
  split; [vm_compute; reflexivity|]. split; [vm_compute; reflexivity|].
  split; reflexivity.
Qed.

(** * Further properties *)

(** ** The order of the two partial sequences *)

Lemma enumerate_from_elem_of {A} (l : list A) (k i : nat) (x : A) :
  (i, x) ∈ enumerate_from k l <-> (k <= i)%nat /\ l !! (i - k)%nat = Some x.
Proof.
  revert k. induction l as [|y l IH]; intros k; simpl.
  - rewrite elem_of_nil. split; [done|]. intros [_ H]. by rewrite lookup_nil in H.
  - rewrite elem_of_cons, IH. split.
    + intros [Heq|[Hle Hl]].
      * simplify_eq. split; [lia|]. by rewrite Nat.sub_diag.
      * split; [lia|]. replace (i - k)%nat with (S (i - S k)) by lia. done.
    + intros [Hle Hl]. destruct (decide (i = k)) as [->|Hne].
      * left. rewrite Nat.sub_diag in Hl. simpl in Hl. congruence.
      * right. split; [lia|].
        replace (i - k)%nat with (S (i - S k)) in Hl by lia. done.
Qed.

Lemma enumerate_elem_of {A} (l : list A) (i : nat) (x : A) :
  (i, x) ∈ enumerate l <-> l !! i = Some x.
Proof.
  unfold enumerate. rewrite enumerate_from_elem_of, Nat.sub_0_r.
  split; [by intros [_ ?]|]. intros. split; [lia|done].
Qed.

Lemma enumerate_from_sorted {A} (l : list A) (k : nat) :
  StronglySorted (fun x y : nat * A => (x.1 < y.1)%nat) (enumerate_from k l).
Proof.
  revert k. induction l as [|y l IH]; intros k; simpl; constructor; [done|].
  apply Forall_forall. intros [i x] Hin.
  apply enumerate_from_elem_of in Hin. simpl. lia.
Qed.

Lemma StronglySorted_middle {A} (R : relation A) (pre post : list A) (x : A) :
  StronglySorted R (pre ++ x :: post) ->
  StronglySorted R (pre ++ post) /\ Forall (R x) post.
Proof.
  rewrite !StronglySorted_app, StronglySorted_cons.
  intros (Hcross & Hpre & Hx & Hpost). split; [|done].
  split; [|done]. intros x1 x2 H1 H2. apply Hcross; [done|]. by right.
Qed.

(** One pass of the loop keeps [sequencer_inv]. *)
Lemma sequencer_inv_step (pre post L R : list task) (x : task) :
  sequencer_inv (pre ++ x :: post) L R ->
  first_min task_key x pre post ->
  if bool_decide (x.2.1 <= x.2.2)
  then sequencer_inv (pre ++ post) (L ++ [x]) R
  else sequencer_inv (pre ++ post) L (x :: R).
Proof.
  intros (HL & HR & HsL & HsR & Hplaced & Htasks) [Hpre Hpost].
  apply StronglySorted_middle in Htasks as [Htasks Hidx].
  assert (Hx : forall t, t ∈ pre ++ post -> task_before x t).
  { intros t Ht. apply elem_of_app in Ht as [Ht|Ht].
    - left. rewrite Forall_forall in Hpre. by apply Hpre.
    - rewrite Forall_forall in Hpost, Hidx.
      specialize (Hpost _ Ht). specialize (Hidx _ Ht).
      unfold task_before. destruct (decide (task_key x = task_key t)); [right|left]; lia. }
  assert (Hrest : forall y t, y ∈ L ++ R -> t ∈ pre ++ post -> task_before y t).
  { intros y t Hy Ht. apply Hplaced; [done|].
    rewrite elem_of_app, elem_of_cons. rewrite elem_of_app in Ht. tauto. }
  assert (Hyx : forall y, y ∈ L ++ R -> task_before y x).
  { intros y Hy. apply Hplaced; [done|].
    rewrite elem_of_app, elem_of_cons. tauto. }
  case_bool_decide as Hcmp.
  - split; [apply Forall_app; split; [done|by constructor]|].
    split; [done|]. split.
    { apply StronglySorted_app_2; [|done|repeat constructor].
      intros y x' Hy Hx'. apply list_elem_of_singleton in Hx' as ->.
      apply Hyx. rewrite elem_of_app. tauto. }
    split; [done|]. split; [|done].
    intros y t Hy Ht. rewrite !elem_of_app, list_elem_of_singleton in Hy.
    destruct Hy as [[Hy| ->]|Hy]; [apply Hrest; [rewrite elem_of_app; tauto|done]
                                  |by apply Hx
                                  |apply Hrest; [rewrite elem_of_app; tauto|done]].
  - split; [done|]. split; [constructor; [lia|done]|]. split; [done|].
    split.
    { constructor; [done|]. apply Forall_forall. intros r Hr.
      apply Hyx. rewrite elem_of_app. tauto. }
    split; [|done].
    intros y t Hy Ht. rewrite elem_of_app, elem_of_cons in Hy.
    destruct Hy as [Hy|[->|Hy]]; [apply Hrest; [rewrite elem_of_app; tauto|done]
                                 |by apply Hx
                                 |apply Hrest; [rewrite elem_of_app; tauto|done]].
Qed.

(** The loop run on the index lists of [L] and [R] ends with the index
    lists of two lists of entries that keep the invariant and hold the
    same entries as [L], [R] and [tasks] together. *)
Lemma johnsons_loop_inv (fuel : nat) :
  forall tasks L R : list task,
    (length tasks <= fuel)%nat ->
    sequencer_inv tasks L R ->
    exists L' R' : list task,
      johnsons_loop fuel tasks L.*1 R.*1 = Some (Ok (L'.*1, R'.*1)) /\
      sequencer_inv [] L' R' /\
      L' ++ R' ≡ₚ L ++ R ++ tasks.
Proof.
  induction fuel as [|fuel IH]; intros tasks L R Hlen Hinv.
  - destruct tasks; simpl in *; [|lia].
    exists L, R. by rewrite app_nil_r.
  - destruct tasks as [|t tasks].
    { exists L, R. by rewrite app_nil_r. }
    destruct (johnsons_body_spec (t :: tasks) L.*1 R.*1)
      as (pre & post & idx & p1 & p2 & Heq & Hfm & Hbody); [done|].
    cbn [johnsons_loop]. rewrite Hbody. rewrite Heq in Hinv.
    pose proof (sequencer_inv_step pre post L R (idx, (p1, p2)) Hinv Hfm) as Hstep.
    assert (Hlen' : (length (pre ++ post) <= fuel)%nat).
    { apply (f_equal length) in Heq. rewrite length_app in *. simpl in *. lia. }
    simpl in Hstep. case_bool_decide.
    + destruct (IH _ _ _ Hlen' Hstep) as (L' & R' & Hrun & Hinv' & Hperm).
      rewrite fmap_app in Hrun. exists L', R'. split; [done|]. split; [done|].
      rewrite Hperm, Heq. solve_Permutation.
    + destruct (IH _ _ _ Hlen' Hstep) as (L' & R' & Hrun & Hinv' & Hperm).
      exists L', R'. split; [done|]. split; [done|].
      rewrite Hperm, Heq. solve_Permutation.
Qed.

Lemma StronglySorted_with {A} (R : relation A) (P : A -> Prop) (l : list A) :
  StronglySorted R l -> Forall P l ->
  StronglySorted (fun x y => R x y /\ P x /\ P y) l.
Proof.
  induction 1 as [|x l Hs IH Hx]; intros HP; [constructor|].
  apply Forall_cons in HP as [HPx HP]. constructor; [by apply IH|].
  rewrite Forall_forall in Hx, HP |- *. intros y Hy. auto.
Qed.

(** The entries behind the two partial sequences: together they are the
    entries of [enumerate(processing_times)], split by [p1 <= p2] and
    each side in the order of selection. *)
Lemma johnsons_lists_entries (processing_times : list (Z * Z)) :
  exists L R : list task,
    johnsons_lists processing_times = Some (Ok (L.*1, R.*1)) /\
    L ++ R ≡ₚ enumerate processing_times /\
    Forall (fun t : task => processing_times !! t.1 = Some t.2 /\
                            t.2.1 <= t.2.2) L /\
    Forall (fun t : task => processing_times !! t.1 = Some t.2 /\
                            t.2.2 < t.2.1) R /\
    StronglySorted task_before L /\
    StronglySorted (flip task_before) R.
Proof.
  destruct (johnsons_loop_inv (length processing_times)
              (enumerate processing_times) [] [])
    as (L & R & Hrun & (HL & HR & HsL & HsR & _ & _) & Hperm).
  { unfold enumerate. by rewrite enumerate_from_length. }
  { unfold sequencer_inv. do 4 (split; [constructor|]).
    split; [|apply enumerate_from_sorted].
    intros y t Hy. by apply elem_of_nil in Hy. }
  simpl in Hperm.
  assert (Hgood : forall t, t ∈ L ++ R ->
                            processing_times !! t.1 = Some t.2).
  { intros [i x] Ht. rewrite Hperm in Ht. by apply enumerate_elem_of in Ht. }
  exists L, R. split; [exact Hrun|]. split; [done|].
  split; [|split; [|done]].
  - rewrite Forall_forall in HL |- *. intros t Ht. split; [|by apply HL].
    apply Hgood. rewrite elem_of_app. tauto.
  - rewrite Forall_forall in HR |- *. intros t Ht. split; [|by apply HR].
    apply Hgood. rewrite elem_of_app. tauto.
Qed.

(** The two partial sequences in full.  [left] holds exactly the tasks
    with [p1 <= p2], in increasing order of [p1]; [right] holds exactly
    the tasks with [p1 > p2], in decreasing order of [p2]; in both, tasks
    with equal times are ordered by their index in the input -- ascending
    in [left], descending in [right]. *)
Theorem johnsons_lists_sorted (processing_times : list (Z * Z)) :
  exists l r,
    johnsons_lists processing_times = Some (Ok (l, r)) /\
    (forall idx, idx ∈ l <->
       exists p1 p2, processing_times !! idx = Some (p1, p2) /\ p1 <= p2) /\
    (forall idx, idx ∈ r <->
       exists p1 p2, processing_times !! idx = Some (p1, p2) /\ p2 < p1) /\
    StronglySorted (before_by (fun i => (processing_times !!! i).1)) l /\
    StronglySorted (flip (before_by (fun i => (processing_times !!! i).2))) r.
Proof.
  destruct (johnsons_lists_entries processing_times)
    as (L & R & Hrun & Hperm & HgL & HgR & HsL & HsR).
  exists L.*1, R.*1. split; [exact Hrun|].
  pose proof (StronglySorted_with _ _ _ HsL HgL) as HsL'.
  pose proof (StronglySorted_with _ _ _ HsR HgR) as HsR'.
  rewrite Forall_forall in HgL, HgR.
  split; [|split; [|split]].
  - intros idx. rewrite list_elem_of_fmap. split.
    + intros ([i [p1 p2]] & -> & Ht). destruct (HgL _ Ht) as [Hpt Hle].
      exists p1, p2. done.
    + intros (p1 & p2 & Hpt & Hle).
      assert (Hin : (idx, (p1, p2)) ∈ L ++ R)
        by (rewrite Hperm; by apply enumerate_elem_of).
      apply elem_of_app in Hin as [Hin|Hin].
      * by exists (idx, (p1, p2)).
      * destruct (HgR _ Hin) as [_ Hlt]. simpl in Hlt. lia.
  - intros idx. rewrite list_elem_of_fmap. split.
    + intros ([i [p1 p2]] & -> & Ht). destruct (HgR _ Ht) as [Hpt Hlt].
      exists p1, p2. done.
    + intros (p1 & p2 & Hpt & Hlt).
      assert (Hin : (idx, (p1, p2)) ∈ L ++ R)
        by (rewrite Hperm; by apply enumerate_elem_of).
      apply elem_of_app in Hin as [Hin|Hin].
      * destruct (HgL _ Hin) as [_ Hle]. simpl in Hle. lia.
      * by exists (idx, (p1, p2)).
  - eapply StronglySorted_fmap; [|exact HsL'].
    intros [i [a b]] [j [c d]] (Hb & [Hi Hab] & [Hj Hcd]). simpl in *.
    unfold before_by, task_before, task_key in *.
    rewrite !pair_min_min in Hb. simpl in Hb.
    rewrite (list_lookup_total_correct _ _ _ Hi).
    rewrite (list_lookup_total_correct _ _ _ Hj). simpl. lia.
  - eapply StronglySorted_fmap; [|exact HsR'].
    intros [i [a b]] [j [c d]] (Hb & [Hi Hab] & [Hj Hcd]). simpl in *.
    unfold flip, before_by, task_before, task_key in *.
    rewrite !pair_min_min in Hb. simpl in Hb.
    rewrite (list_lookup_total_correct _ _ _ Hi).
    rewrite (list_lookup_total_correct _ _ _ Hj). simpl. lia.
Qed.

(** ** The recurrence of the two machines *)

Lemma Zsum_cons (x : Z) (l : list Z) : Zsum (x :: l) = x + Zsum l.
Proof. done. Qed.

Lemma run_cons (free job : Z * Z) (jobs : list (Z * Z)) :
  run free (job :: jobs) = run (advance free job) jobs.
Proof. done. Qed.

Lemma run_app (free : Z * Z) (jobs1 jobs2 : list (Z * Z)) :
  run free (jobs1 ++ jobs2) = run (run free jobs1) jobs2.
Proof. apply foldl_app. Qed.

(** Machine 1 never waits: it is free after the sum of the [p1]. *)
Lemma run_machine1 (jobs : list (Z * Z)) :
  forall free, (run free jobs).1 = free.1 + Zsum jobs.*1.
Proof.
  induction jobs as [|job jobs IH]; intros free.
  - simpl. lia.
  - rewrite run_cons, IH, fmap_cons, Zsum_cons. unfold advance. cbn [fst]. lia.
Qed.

(** A later start of machine 2 never makes the end earlier. *)
Lemma run_mono (jobs : list (Z * Z)) :
  forall t1 t2 t2', t2 <= t2' -> (run (t1, t2) jobs).2 <= (run (t1, t2') jobs).2.
Proof.
  induction jobs as [|job jobs IH]; intros t1 t2 t2' Hle; [done|].
  rewrite !run_cons. unfold advance; simpl. apply IH. lia.
Qed.

(** Two jobs at the head in Johnson's order end no later than in the
    other order. *)
Lemma run_swap (x y : Z * Z) (jobs : list (Z * Z)) (free : Z * Z) :
  johnson_le x y ->
  (run free (x :: y :: jobs)).2 <= (run free (y :: x :: jobs)).2.
Proof.
  intros Hxy. destruct free as [t1 t2], x as [a b], y as [c d].
  unfold johnson_le in Hxy. simpl in Hxy.
  rewrite !run_cons. unfold advance; simpl.
  replace (t1 + c + a) with (t1 + a + c) by lia.
  apply run_mono. lia.
Qed.

(** A job that may go before every job of [u] ends no later at the front
    of [u] than behind it. *)
Lemma run_bubble (s : Z * Z) (u v : list (Z * Z)) :
  Forall (johnson_le s) u ->
  forall free, (run free (s :: u ++ v)).2 <= (run free (u ++ s :: v)).2.
Proof.
  induction u as [|z u IH]; intros Hs free; [done|].
  apply Forall_cons in Hs as [Hz Hs]. rewrite <-!app_comm_cons.
  etrans; [apply run_swap; exact Hz|].
  rewrite (run_cons free z (s :: u ++ v)), (run_cons free z (u ++ s :: v)).
  by apply IH.
Qed.

(** A list of jobs that is pairwise in Johnson's order ends no later than
    any rearrangement of it, from whatever state the machines start. *)
Lemma run_sorted_optimal (sorted : list (Z * Z)) :
  StronglySorted johnson_le sorted ->
  forall other free, other ≡ₚ sorted -> (run free sorted).2 <= (run free other).2.
Proof.
  induction 1 as [|s sorted Hs IH Hall]; intros other free Hperm.
  - apply Permutation_nil_r in Hperm as ->. done.
  - assert (Hin : s ∈ other) by (rewrite Hperm; left).
    apply list_elem_of_split in Hin as (u & v & ->).
    rewrite <-Permutation_middle in Hperm.
    apply Permutation_cons_inv in Hperm.
    etrans; [|apply run_bubble].
    + rewrite !run_cons. by apply IH.
    + rewrite Forall_forall in Hall |- *. intros z Hz. apply Hall.
      rewrite <-Hperm, elem_of_app. tauto.
Qed.

(** ** The simulator computes the recurrence *)

Lemma jobs_of_app (processing_times : list (Z * Z)) (s1 s2 : list nat) :
  jobs_of processing_times (s1 ++ s2) =
  jobs_of processing_times s1 ++ jobs_of processing_times s2.
Proof. apply fmap_app. Qed.

(** The finish times at position [i] are the state of the machines after
    the first [i + 1] tasks of the sequence. *)
Lemma rows_run (processing_times : list (Z * Z)) (sequence : list nat)
    (s1 f1 s2 f2 : list Z) (n : nat) :
  (forall i, (i < n)%nat ->
             row_ok processing_times sequence (Timing s1 f1 s2 f2) i) ->
  forall i, (i < n)%nat ->
    run (0, 0) (jobs_of processing_times (take (S i) sequence)) =
    (f1 !!! i, f2 !!! i).
Proof.
  intros Hrows. induction i as [|i IH]; intros Hi;
    destruct (Hrows _ Hi) as (idx & p1 & p2 & Hs & Hpt & E1 & E2 & E3 & E4);
    simpl in E1, E2, E3, E4;
    rewrite (take_S_r _ _ _ Hs), jobs_of_app, run_app.
  - simpl. unfold jobs_of, run, advance. simpl.
    rewrite (list_lookup_total_correct _ _ _ Hpt). simpl.
    rewrite E4, E3, E2, E1. done.
  - rewrite IH by lia. unfold jobs_of, run, advance. simpl.
    rewrite (list_lookup_total_correct _ _ _ Hpt). simpl.
    rewrite E4, E3, E2, E1. done.
Qed.

(** For a non-empty sequence of indices in range: the simulator returns,
    its arrays satisfy the timing equations, and the last entries of
    [finish_m1] and [finish_m2] are the final state of the recurrence. *)
Lemma calculate_schedule_run (processing_times : list (Z * Z))
    (sequence : list nat) :
  Forall (fun idx => (idx < length processing_times)%nat) sequence ->
  (1 <= length sequence)%nat ->
  exists s1 f1 s2 f2,
    calculate_schedule processing_times sequence = Ok (s1, f1, s2, f2) /\
    timing_length (length sequence) (Timing s1 f1 s2 f2) /\
    (forall i, (i < length sequence)%nat ->
               row_ok processing_times sequence (Timing s1 f1 s2 f2) i) /\
    getitem_last f1 = Ok (run (0, 0) (jobs_of processing_times sequence)).1 /\
    getitem_last f2 = Ok (run (0, 0) (jobs_of processing_times sequence)).2.
Proof.
  intros Hrange Hn.
  destruct (calculate_schedule_spec processing_times sequence Hrange)
    as (s1 & f1 & s2 & f2 & Hrun & Hlen & Hrows).
  exists s1, f1, s2, f2. split; [done|]. split; [done|]. split; [done|].
  pose proof (rows_run _ _ _ _ _ _ _ Hrows (length sequence - 1)%nat
                ltac:(lia)) as Hlast.
  replace (S (length sequence - 1)) with (length sequence) in Hlast by lia.
  rewrite take_ge in Hlast by done. rewrite Hlast.
  destruct Hlen as (_ & H2 & _ & H4). simpl in *.
  rewrite !getitem_last_lt by lia. by rewrite H2, H4.
Qed.

Lemma jobs_of_seq (processing_times : list (Z * Z)) :
  jobs_of processing_times (seq 0 (length processing_times)) = processing_times.
Proof.
  unfold jobs_of. apply list_eq. intros i. rewrite list_lookup_fmap.
  destruct (decide (i < length processing_times)%nat) as [Hi|Hi].
  - rewrite lookup_seq_lt by done. simpl.
    by rewrite list_lookup_lookup_total_lt.
  - rewrite lookup_seq_ge by lia. simpl. symmetry. apply lookup_ge_None. lia.
Qed.

(** The jobs of a valid sequence are the input jobs, rearranged. *)
Lemma jobs_of_valid (processing_times : list (Z * Z)) (sequence : list nat) :
  valid_sequence (length processing_times) sequence ->
  jobs_of processing_times sequence ≡ₚ processing_times.
Proof.
  intros Hvalid. rewrite <-(jobs_of_seq processing_times) at 2.
  unfold jobs_of. by apply fmap_Permutation.
Qed.

(** ** Optimality *)

(** The sequence of the sequencer is pairwise in Johnson's order. *)
Lemma johnsons_rule_johnson_sorted (processing_times : list (Z * Z)) :
  exists sequence,
    johnsons_rule processing_times = Some (Ok sequence) /\
    sequence ≡ₚ seq 0 (length processing_times) /\
    StronglySorted johnson_le (jobs_of processing_times sequence).
Proof.
  destruct (johnsons_lists_entries processing_times)
    as (L & R & Hrun & Hperm & HgL & HgR & HsL & HsR).
  exists (L.*1 ++ R.*1). unfold johnsons_rule. rewrite Hrun.
  split; [done|]. split.
  { rewrite <-fmap_app, Hperm. unfold enumerate.
    by rewrite enumerate_from_fst. }
  assert (Hjobs : forall T : list task,
            Forall (fun t : task => processing_times !! t.1 = Some t.2) T ->
            jobs_of processing_times T.*1 = T.*2).
  { intros T HT. unfold jobs_of. rewrite <-list_fmap_compose.
    apply Forall_fmap_ext_1. eapply Forall_impl; [exact HT|].
    intros t Ht. simpl. by apply list_lookup_total_correct. }
  rewrite jobs_of_app, !Hjobs
    by (eapply Forall_impl; [eassumption|]; by intros ? [? _]).
  pose proof (StronglySorted_with _ _ _ HsL HgL) as HsL'.
  pose proof (StronglySorted_with _ _ _ HsR HgR) as HsR'.
  rewrite Forall_forall in HgL, HgR.
  apply StronglySorted_app_2.
  - intros x y. rewrite !list_elem_of_fmap.
    intros ([i [a b]] & -> & Hx) ([j [c d]] & -> & Hy).
    destruct (HgL _ Hx) as [_ ?]. destruct (HgR _ Hy) as [_ ?].
    unfold johnson_le. simpl in *. lia.
  - eapply StronglySorted_fmap; [|exact HsL'].
    intros [i [a b]] [j [c d]] (Hb & [_ ?] & [_ ?]).
    unfold johnson_le, task_before, task_key in *.
    rewrite !pair_min_min in Hb. simpl in *. lia.
  - eapply StronglySorted_fmap; [|exact HsR'].
    intros [i [a b]] [j [c d]] (Hb & [_ ?] & [_ ?]).
    unfold flip, johnson_le, task_before, task_key in *.
    rewrite !pair_min_min in Hb. simpl in *. lia.
Qed.

(** No ordering of the tasks ends earlier than the one [johnsons_rule]
    returns: for a non-empty task list and any permutation [other] of its
    indices, the last [finish_m2] entry that [calculate_schedule] computes
    for the sequencer's sequence is at most the one it computes for
    [other]. *)
Theorem johnsons_rule_optimal
    (processing_times : list (Z * Z)) (other : list nat) :
  processing_times <> [] ->
  valid_sequence (length processing_times) other ->
  exists sequence s1 f1 s2 f2 makespan s1' f1' s2' f2' makespan',
    johnsons_rule processing_times = Some (Ok sequence) /\
    calculate_schedule processing_times sequence = Ok (s1, f1, s2, f2) /\
    getitem_last f2 = Ok makespan /\
    calculate_schedule processing_times other = Ok (s1', f1', s2', f2') /\
    getitem_last f2' = Ok makespan' /\
    makespan <= makespan'.
Proof.
  intros Hne Hother.
  destruct (johnsons_rule_johnson_sorted processing_times)
    as (sequence & Hseq & Hperm & Hsorted).
  assert (Hn : (1 <= length processing_times)%nat)
    by (destruct processing_times; [done|simpl; lia]).
  destruct (calculate_schedule_run processing_times sequence)
    as (s1 & f1 & s2 & f2 & Hrun & _ & _ & _ & Hlast).
  { by apply valid_sequence_in_range. }
  { by rewrite (valid_sequence_length _ _ Hperm). }
  destruct (calculate_schedule_run processing_times other)
    as (s1' & f1' & s2' & f2' & Hrun' & _ & _ & _ & Hlast').
  { by apply valid_sequence_in_range. }
  { by rewrite (valid_sequence_length _ _ Hother). }
  do 11 eexists. repeat (split; [eassumption|]).
  apply run_sorted_optimal; [done|].
  rewrite (jobs_of_valid _ _ Hperm). by apply jobs_of_valid.
Qed.

Lemma johnsons_rule_optimal_witness :
  let processing_times := [(4, 2); (1, 3)] in
  let other := [0; 1]%nat in
  (processing_times <> [] /\ valid_sequence (length processing_times) other) /\
  exists sequence s1 f1 s2 f2 makespan s1' f1' s2' f2' makespan',
    johnsons_rule processing_times = Some (Ok sequence) /\
    calculate_schedule processing_times sequence = Ok (s1, f1, s2, f2) /\
    getitem_last f2 = Ok makespan /\
    calculate_schedule processing_times other = Ok (s1', f1', s2', f2') /\
    getitem_last f2' = Ok makespan' /\
    makespan <= makespan'.
Proof.
  intros processing_times other.
  assert (H1 : processing_times <> []) by discriminate.
  assert (H2 : valid_sequence (length processing_times) other)
    by exact (Permutation_refl _).
  split; [exact (conj H1 H2)|].
  exact (johnsons_rule_optimal processing_times other H1 H2).
Defined.

(** ** Work conservation *)

Lemma Zsum_Permutation (l1 l2 : list Z) : l1 ≡ₚ l2 -> Zsum l1 = Zsum l2.
Proof.
  induction 1 as [|x l1 l2 _ IH|x y l|l1 l2 l3 _ IH1 _ IH2];
    rewrite ?Zsum_cons; lia.
Qed.

(** In the arrays of the simulator no gap is negative, and the delay of
    machine 2 accumulated up to position [k] is what is left of
    [finish_m2[k]] after the work done on machine 2. *)
Lemma delay_prefix_exact (processing_times : list (Z * Z))
    (sequence : list nat) (s1 f1 s2 f2 : list Z) (n : nat) :
  (forall i, (i < n)%nat ->
             row_ok processing_times sequence (Timing s1 f1 s2 f2) i) ->
  forall k, (k < n)%nat ->
    s2 !!! 0%nat + Zsum (idle_gap s2 f2 <$> seq 1 k) =
    f2 !!! k - Zsum (jobs_of processing_times (take (S k) sequence)).*2.
Proof.
  intros Hrows. induction k as [|k IH]; intros Hk;
    destruct (Hrows _ Hk) as (idx & p1 & p2 & Hs & Hpt & _ & _ & E3 & E4);
    simpl in E3, E4;
    rewrite (take_S_r _ _ _ Hs), jobs_of_app, fmap_app, Zsum_app;
    unfold jobs_of at 2; simpl (_ <$> [idx]);
    rewrite (list_lookup_total_correct _ _ _ Hpt); simpl ([(p1, p2)].*2).
  - simpl. lia.
  - rewrite seq_S, fmap_app, Zsum_app. specialize (IH ltac:(lia)).
    simpl (_ <$> [_]). unfold idle_gap at 2.
    replace (1 + k - 1)%nat with k by lia. replace (1 + k)%nat with (S k) by lia.
    replace (S k - 1)%nat with k by lia.
    rewrite !Zsum_cons. simpl (Zsum []). lia.
Qed.

Lemma utilization_closed_form (m w1 w2 : Z) :
  m <> 0 ->
  (1 - (inject_Z (m - w1) / inject_Z m + inject_Z (m - w2) / inject_Z m) / 2
   == inject_Z (w1 + w2) / inject_Z (2 * m))%Q.
Proof.
  intros Hm.
  assert (Hm' : ~ (inject_Z m == 0)%Q).
  { change 0%Q with (inject_Z 0). rewrite inject_Z_injective. done. }
  unfold Z.sub. rewrite !inject_Z_plus, !inject_Z_mult, !inject_Z_opp.
  change (inject_Z 2) with 2%Q. field. done.
Qed.

(** The metrics of a simulated schedule, with the makespan as the end of
    the recurrence. *)
Lemma simulated_metrics
    (processing_times : list (Z * Z)) (sequence : list nat) :
  processing_times <> [] ->
  nonneg_times processing_times ->
  valid_sequence (length processing_times) sequence ->
  let work1 := Zsum processing_times.*1 in
  let work2 := Zsum processing_times.*2 in
  let makespan := (run (0, 0) (jobs_of processing_times sequence)).2 in
  exists s1 f1 s2 f2,
    calculate_schedule processing_times sequence = Ok (s1, f1, s2, f2) /\
    getitem_last f1 = Ok work1 /\
    getitem_last f2 = Ok makespan /\
    (makespan <> 0 ->
     exists average_delay utilization,
       calculate_metrics f1 f2 s1 s2 =
         Ok (makespan, makespan - work1, makespan - work2,
             average_delay, utilization) /\
       utilization = (1 - average_delay)%Q /\
       (utilization == inject_Z (work1 + work2) / inject_Z (2 * makespan))%Q).
Proof.
  intros Hne Hnn Hvalid work1 work2 m.
  assert (Hn : (1 <= length sequence)%nat).
  { rewrite (valid_sequence_length _ _ Hvalid).
    destruct processing_times; [done|simpl; lia]. }
  destruct (calculate_schedule_run processing_times sequence)
    as (s1 & f1 & s2 & f2 & Hrun & Hlen & Hrows & Hlast1 & Hlast2);
    [by apply valid_sequence_in_range|done|].
  set (n := length sequence) in *.
  pose proof (jobs_of_valid _ _ Hvalid) as Hjobs.
  assert (Hw1 : Zsum (jobs_of processing_times sequence).*1 = work1).
  { apply Zsum_Permutation. by apply fmap_Permutation. }
  assert (Hw2 : Zsum (jobs_of processing_times sequence).*2 = work2).
  { apply Zsum_Permutation. by apply fmap_Permutation. }
  rewrite run_machine1, Hw1 in Hlast1. change (0 + work1) with work1 in Hlast1.
  exists s1, f1, s2, f2.
  split; [done|]. split; [done|]. split; [done|].
  fold m in Hlast2.
  intros Hm. destruct Hlen as (H1 & H2 & H3 & H4). simpl in *.
  assert (Hm2 : f2 !!! (n - 1)%nat = m).
  { rewrite getitem_last_lt, H4 in Hlast2 by lia. by injection Hlast2. }
  assert (Hm1 : f1 !!! (n - 1)%nat = work1).
  { rewrite getitem_last_lt, H2 in Hlast1 by lia. by injection Hlast1. }
  assert (Hd2 : delay_m2_formula s2 f2 = m - work2).
  { unfold delay_m2_formula. rewrite H3.
    rewrite (delay_prefix_exact _ _ _ _ _ _ _ Hrows (n - 1)%nat) by lia.
    replace (S (n - 1)) with n by lia.
    rewrite take_ge by (unfold n; lia). by rewrite Hw2, Hm2. }
  pose proof (schedule_metrics_return processing_times sequence s1 f1 s2 f2 n
                Hnn (conj H1 (conj H2 (conj H3 H4))) Hrows Hn
                ltac:(by rewrite Hm2)) as Hmet.
  cbv zeta in Hmet. rewrite Hm2, Hm1, Hd2 in Hmet.
  do 2 eexists. split; [exact Hmet|]. split; [done|].
  by apply utilization_closed_form.
Qed.

(** The integers among the metrics of a simulated schedule, in terms of
    the input alone: for a non-empty list of non-negative times and a
    valid sequence, machine 1 finishes at the sum of all [p1] whatever
    the order, and when the makespan is not zero [calculate_metrics]
    returns with [delay_m1] the makespan minus the total work of
    machine 1 and [delay_m2] the makespan minus the total work of
    machine 2: the clamp of [calculate_delays] never cuts. *)
Theorem metrics_work_conservation
    (processing_times : list (Z * Z)) (sequence : list nat) :
  processing_times <> [] ->
  nonneg_times processing_times ->
  valid_sequence (length processing_times) sequence ->
  let work1 := Zsum processing_times.*1 in
  let work2 := Zsum processing_times.*2 in
  exists s1 f1 s2 f2 makespan,
    calculate_schedule processing_times sequence = Ok (s1, f1, s2, f2) /\
    getitem_last f1 = Ok work1 /\
    getitem_last f2 = Ok makespan /\
    (makespan <> 0 ->
     exists average_delay utilization,
       calculate_metrics f1 f2 s1 s2 =
         Ok (makespan, makespan - work1, makespan - work2,
             average_delay, utilization)).
Proof.
  intros Hne Hnn Hvalid work1 work2.
  destruct (simulated_metrics processing_times sequence Hne Hnn Hvalid)
    as (s1 & f1 & s2 & f2 & Hrun & Hl1 & Hl2 & Hmet).
  exists s1, f1, s2, f2, (run (0, 0) (jobs_of processing_times sequence)).2.
  split; [done|]. split; [done|]. split; [done|].
  intros Hm. destruct (Hmet Hm) as (a & u & Hcalc & _ & _). by exists a, u.
Qed.

Lemma metrics_work_conservation_witness :
  let processing_times := [(4, 2); (1, 3)] in
  let sequence := [1; 0]%nat in
  (processing_times <> [] /\ nonneg_times processing_times /\
   valid_sequence (length processing_times) sequence) /\
  exists s1 f1 s2 f2 makespan,
    calculate_schedule processing_times sequence = Ok (s1, f1, s2, f2) /\
    getitem_last f1 = Ok 5 /\
    getitem_last f2 = Ok makespan /\
    (makespan <> 0 ->
     exists average_delay utilization,
       calculate_metrics f1 f2 s1 s2 =
         Ok (makespan, makespan - 5, makespan - 5,
             average_delay, utilization)).
Proof.
  intros processing_times sequence.
  assert (H1 : processing_times <> []) by discriminate.
  assert (H0 : nonneg_times processing_times)
    by (repeat constructor; simpl; lia).
  assert (H2 : valid_sequence (length processing_times) sequence)
    by (apply perm_swap).
  split; [exact (conj H1 (conj H0 H2))|].
  exact (metrics_work_conservation processing_times sequence H1 H0 H2).
Defined.

(** ** What the simulator accepts *)

Lemma list_position_in (n : nat) (idx : Z) :
  - Z.of_nat n <= idx < Z.of_nat n ->
  exists k, list_position n idx = Ok k /\ (k < n)%nat.
Proof.
  intros Hr. unfold list_position.
  destruct (decide (idx < 0)); rewrite decide_True by lia;
    eexists; (split; [done|lia]).
Qed.

Lemma list_position_out (n : nat) (idx : Z) :
  idx < - Z.of_nat n \/ Z.of_nat n <= idx ->
  list_position n idx = Raise IndexError.
Proof.
  intros Hr. unfold list_position.
  destruct (decide (idx < 0)); by rewrite decide_False by lia.
Qed.

Lemma list_position_nat (n k : nat) :
  (k < n)%nat -> list_position n (Z.of_nat k) = Ok k.
Proof.
  intros Hk. unfold list_position.
  destruct (decide (Z.of_nat k < 0)); [lia|].
  rewrite decide_True by lia. by rewrite Nat2Z.id.
Qed.

Lemma schedule_loop_int_cases (processing_times : list (Z * Z)) (n : nat)
    (rest : list Z) :
  forall (i : nat) (st : timing),
    timing_length n st -> (i + length rest <= n)%nat ->
    let len := Z.of_nat (length processing_times) in
    (Forall (fun idx => - len <= idx < len) rest /\
     exists st', schedule_loop_int processing_times i rest st = Ok st' /\
                 timing_length n st') \/
    (Exists (fun idx => idx < - len \/ len <= idx) rest /\
     schedule_loop_int processing_times i rest st = Raise IndexError).
Proof.
  induction rest as [|idx rest IH]; intros i st Hlen Hi len.
  - left. split; [constructor|]. by exists st.
  - simpl in Hi. cbn [schedule_loop_int].
    destruct (decide (- len <= idx < len)) as [Hin|Hout].
    + destruct (list_position_in _ _ Hin) as (k & -> & Hk).
      cbn [mbind result_bind].
      destruct (lookup_lt_is_Some_2 _ _ Hk) as [[p1 p2] Hpt].
      pose proof (schedule_body_spec processing_times n i k st p1 p2
                    Hlen ltac:(lia) Hpt) as Hbody.
      cbv zeta in Hbody. rewrite Hbody. cbn [mbind result_bind].
      match goal with |- context [schedule_loop_int _ _ _ ?st1] =>
        destruct (IH (S i) st1) as [[Hall Hok]|[Hex Hraise]] end.
      * destruct Hlen as (H1 & H2 & H3 & H4).
        unfold timing_length; simpl. by rewrite !length_insert.
      * lia.
      * left. split; [by constructor|done].
      * right. split; [by apply Exists_cons_tl|done].
    + right. split; [apply Exists_cons_hd; lia|].
      rewrite list_position_out by lia. done.
Qed.

Lemma schedule_loop_int_nat (processing_times : list (Z * Z))
    (positions : list nat) :
  forall (i : nat) (st : timing),
    schedule_loop_int processing_times i (Z.of_nat <$> positions) st =
    schedule_loop processing_times i positions st.
Proof.
  induction positions as [|k positions IH]; intros i st; [done|].
  rewrite fmap_cons. cbn [schedule_loop_int schedule_loop].
  destruct (decide (k < length processing_times)%nat) as [Hk|Hk].
  - rewrite list_position_nat by done. cbn [mbind result_bind].
    destruct (schedule_body processing_times i k st) as [st'|e];
      cbn [mbind result_bind]; [apply IH|done].
  - rewrite list_position_out by lia. cbn [mbind result_bind].
    unfold schedule_body, getitem.
    rewrite (proj2 (lookup_ge_None _ _)) by lia. done.
Qed.

(** [calculate_schedule] checks nothing but the range of the indices,
    with Python's reading of a subscript.  On a sequence of integers it
    returns four arrays of the length of the sequence exactly when every
    index lies in [-len(processing_times) .. len(processing_times) - 1]
    -- negative indices count from the end, repeated and missing indices
    are accepted -- and raises [IndexError] exactly when some index lies
    outside.  On non-negative indices it is [calculate_schedule]. *)
Theorem calculate_schedule_range_only
    (processing_times : list (Z * Z)) (sequence : list Z) :
  let len := Z.of_nat (length processing_times) in
  (Forall (fun idx => - len <= idx < len) sequence <->
   exists s1 f1 s2 f2,
     calculate_schedule_int processing_times sequence = Ok (s1, f1, s2, f2) /\
     length s1 = length sequence /\ length f1 = length sequence /\
     length s2 = length sequence /\ length f2 = length sequence) /\
  (Exists (fun idx => idx < - len \/ len <= idx) sequence <->
   calculate_schedule_int processing_times sequence = Raise IndexError) /\
  (forall positions : list nat,
     calculate_schedule_int processing_times (Z.of_nat <$> positions) =
     calculate_schedule processing_times positions).
Proof.
  intros len.
  assert (Hcases :
    (Forall (fun idx => - len <= idx < len) sequence /\
     exists s1 f1 s2 f2,
       calculate_schedule_int processing_times sequence = Ok (s1, f1, s2, f2) /\
       length s1 = length sequence /\ length f1 = length sequence /\
       length s2 = length sequence /\ length f2 = length sequence) \/
    (Exists (fun idx => idx < - len \/ len <= idx) sequence /\
     calculate_schedule_int processing_times sequence = Raise IndexError)).
  { unfold calculate_schedule_int.
    destruct (schedule_loop_int_cases processing_times (length sequence)
                sequence 0 (Timing (replicate (length sequence) 0)
                                   (replicate (length sequence) 0)
                                   (replicate (length sequence) 0)
                                   (replicate (length sequence) 0)))
      as [[Hall (st' & -> & Hlen)]|[Hex ->]].
    - unfold timing_length; simpl. by rewrite !length_replicate.
    - lia.
    - left. split; [done|]. destruct st' as [s1 f1 s2 f2].
      by exists s1, f1, s2, f2.
    - by right. }
  assert (Hexcl : Forall (fun idx => - len <= idx < len) sequence ->
                  Exists (fun idx => idx < - len \/ len <= idx) sequence ->
                  False).
  { rewrite Forall_forall, Exists_exists. intros Hall (idx & Hin & Hbad).
    specialize (Hall _ Hin). lia. }
  split; [|split].
  - split.
    + intros Hall. destruct Hcases as [[_ H]|[Hex _]]; [done|].
      exfalso. by apply Hexcl.
    + intros (s1 & f1 & s2 & f2 & Hok & _).
      destruct Hcases as [[H _]|[_ H]]; [done|congruence].
  - split.
    + intros Hex. destruct Hcases as [[Hall _]|[_ H]]; [|done].
      exfalso. by apply Hexcl.
    + intros Hraise.
      destruct Hcases as [[_ (s1 & f1 & s2 & f2 & H & _)]|[H _]];
        [congruence|done].
  - intros positions. unfold calculate_schedule_int, calculate_schedule.
    by rewrite schedule_loop_int_nat, length_fmap.
Qed.

(** ** The handler, case by case *)

Lemma any_negative_false (processing_times : list (Z * Z)) :
  any_negative processing_times = false <-> nonneg_times processing_times.
Proof.
  unfold any_negative, nonneg_times. rewrite <-not_true_iff_false.
  rewrite existsb_exists, Forall_forall. split.
  - intros Hno [p1 p2] Hin. simpl.
    destruct (decide (0 <= p1 /\ 0 <= p2)) as [|Hneg]; [done|].
    exfalso. apply Hno. exists (p1, p2). split; [by apply list_elem_of_In|].
    apply orb_true_iff. rewrite !bool_decide_eq_true. lia.
  - intros Hall ([p1 p2] & Hin & Hneg). apply list_elem_of_In in Hin.
    specialize (Hall _ Hin). simpl in Hall.
    apply orb_true_iff in Hneg. rewrite !bool_decide_eq_true in Hneg. lia.
Qed.

Lemma run_zeros (jobs : list (Z * Z)) :
  Forall (fun t => t = (0, 0)) jobs -> run (0, 0) jobs = (0, 0).
Proof.
  induction 1 as [|job jobs -> _ IH]; [done|]. by rewrite run_cons.
Qed.

(** The [else] branch of the handler on a non-empty table without
    negative entries: the makespan is not negative; the page is the
    [ZeroDivisionError] traceback when it is zero, which is the case
    exactly for an all-zero table, and the results otherwise. *)
Lemma on_calculate_nonneg (processing_times : list (Z * Z)) :
  processing_times <> [] ->
  nonneg_times processing_times ->
  (Forall (fun t => t = (0, 0)) processing_times /\
   on_calculate processing_times = Traceback ZeroDivisionError) \/
  (Exists (fun t => t <> (0, 0)) processing_times /\
   exists sequence timings makespan delay_m1 delay_m2 average_delay utilization,
     on_calculate processing_times =
       Results sequence timings
         (makespan, delay_m1, delay_m2, average_delay, utilization) /\
     0 < makespan).
Proof.
  intros Hne Hnn.
  destruct (johnsons_rule_perm processing_times) as (sequence & Hseq & Hperm).
  assert (Hn : (1 <= length sequence)%nat).
  { rewrite (valid_sequence_length _ _ Hperm).
    destruct processing_times; [done|simpl; lia]. }
  destruct (calculate_schedule_run processing_times sequence)
    as (s1 & f1 & s2 & f2 & Hrun & Hlen & Hrows & _ & Hlast);
    [by apply valid_sequence_in_range|done|].
  set (n := length sequence) in *.
  set (m := (run (0, 0) (jobs_of processing_times sequence)).2) in *.
  assert (Hpage : on_calculate processing_times =
                  match calculate_metrics f1 f2 s1 s2 with
                  | Ok metrics => Results sequence (s1, f1, s2, f2) metrics
                  | Raise e => Traceback e
                  end).
  { unfold on_calculate, pipeline.
    rewrite (proj2 (any_negative_false _) Hnn), Hseq, Hrun.
    cbn [mbind result_bind]. by destruct (calculate_metrics f1 f2 s1 s2). }
  pose proof (timestamps_bounded processing_times sequence s1 f1 s2 f2 n
                Hnn Hrows (n - 1)%nat ltac:(lia)) as Hb.
  cbv zeta in Hb. destruct Hlen as (H1 & H2 & H3 & H4). simpl in *.
  assert (Hm : f2 !!! (n - 1)%nat = m).
  { rewrite getitem_last_lt, H4 in Hlast by lia. by injection Hlast. }
  destruct (decide (m = 0)) as [Hz|Hnz].
  - left. split.
    + apply (zero_makespan_zero_times processing_times sequence s1 f1 s2 f2);
        try done. by rewrite Hlast, Hz.
    + rewrite Hpage, (calculate_metrics_zero s1 f1 s2 f2 n); try done.
      by rewrite Hm.
  - right. split.
    + apply not_Forall_Exists; [apply _|]. intros Hall. apply Hnz.
      unfold m. rewrite run_zeros; [done|].
      by rewrite (jobs_of_valid _ _ Hperm).
    + pose proof (schedule_metrics_return processing_times sequence s1 f1 s2 f2
                    n Hnn (conj H1 (conj H2 (conj H3 H4))) Hrows Hn
                    ltac:(by rewrite Hm)) as Hmet.
      cbv zeta in Hmet. rewrite Hmet in Hpage.
      do 7 eexists. split; [exact Hpage|]. lia.
Qed.


(** ** The table as the page builds it *)

Lemma on_calculate_zeros (processing_times : list (Z * Z)) :
  processing_times <> [] ->
  Forall (fun t => t = (0, 0)) processing_times ->
  on_calculate processing_times = Traceback ZeroDivisionError.
Proof.
  intros Hne Hz.
  destruct (on_calculate_nonneg processing_times) as [[_ H]|[Hex _]];
    [done| |done|].
  - eapply Forall_impl; [exact Hz|]. intros t ->. simpl. lia.
  - exfalso. eapply Exists_not_Forall; [|exact Hz].
    eapply Exists_impl; [exact Hex|]. done.
Qed.

(** For every task count other than ten the table is built with one
    label per task and zeros in both time columns, and a click on
    "Calculate Optimal Sequence" before any cell is edited ends in the
    [ZeroDivisionError] traceback. *)
Theorem unedited_table_divides_by_zero (num_tasks : nat) :
  (1 <= num_tasks)%nat -> num_tasks <> 10%nat ->
  let df := build_frame num_tasks in
  length (col_task df) = num_tasks /\
  col_p1 df = replicate num_tasks 0 /\
  col_p2 df = replicate num_tasks 0 /\
  on_calculate (processing_times_of df) = Traceback ZeroDivisionError.
Proof.
  intros Hn Hten df.
  assert (Hdf : df = Frame ((fun i => "Task " +:+ pretty (i + 1)%nat)
                              <$> seq 0 num_tasks)
                           (replicate num_tasks 0) (replicate num_tasks 0)).
  { unfold df, build_frame, table_defaults. rewrite decide_False by done.
    by rewrite take_replicate, Nat.min_id. }
  rewrite Hdf. simpl. split; [by rewrite length_fmap, length_seq|].
  split; [done|]. split; [done|].
  unfold processing_times_of; simpl.
  rewrite (zip_with_replicate pair num_tasks 0 0). apply on_calculate_zeros.
  - destruct num_tasks; [lia|done].
  - apply Forall_replicate. done.
Qed.

Lemma unedited_table_divides_by_zero_witness :
  ((1 <= 3)%nat /\ 3%nat <> 10%nat) /\
  length (col_task (build_frame 3)) = 3%nat /\
  col_p1 (build_frame 3) = replicate 3 0 /\
  col_p2 (build_frame 3) = replicate 3 0 /\
  on_calculate (processing_times_of (build_frame 3)) =
    Traceback ZeroDivisionError.
Proof.
  assert (H1 : (1 <= 3)%nat) by lia.
  assert (H2 : 3%nat <> 10%nat) by lia.
  split; [exact (conj H1 H2)|].
  exact (unedited_table_divides_by_zero 3 H1 H2).
Defined.

(** ** What the metrics calculator needs *)

Lemma getitem_last_nonempty {A} (l : list A) :
  l <> [] -> exists x, last l = Some x /\ getitem_last l = Ok x.
Proof.
  intros Hl. unfold getitem_last. destruct (last l) as [x|] eqn:E; [eauto|].
  by apply last_None in E.
Qed.

Lemma delays_loop_cases (s2 f2 : list Z) (range_ : list nat) :
  forall acc : Z,
    Forall (fun i => (i < length s2)%nat) range_ ->
    (Forall (fun i => (i - 1 < length f2)%nat) range_ /\
     exists v, delays_loop s2 f2 range_ acc = Ok v) \/
    (Exists (fun i => (length f2 <= i - 1)%nat) range_ /\
     delays_loop s2 f2 range_ acc = Raise IndexError).
Proof.
  induction range_ as [|i rest IH]; intros acc Hr.
  - left. split; [constructor|by exists acc].
  - apply Forall_cons in Hr as [Hi Hr]. cbn [delays_loop].
    rewrite (getitem_lt s2 i) by done. cbn [mbind result_bind].
    destruct (decide (i - 1 < length f2)%nat) as [Hf|Hf].
    + rewrite (getitem_lt f2 (i - 1)) by done. cbn [mbind result_bind].
      destruct (IH (if bool_decide (s2 !!! i - f2 !!! (i - 1)%nat > 0)
                    then acc + (s2 !!! i - f2 !!! (i - 1)%nat) else acc) Hr)
        as [[Hall Hok]|[Hex Hraise]].
      * left. split; [by constructor|done].
      * right. split; [by apply Exists_cons_tl|done].
    + right. split; [apply Exists_cons_hd; lia|].
      unfold getitem at 1. rewrite (proj2 (lookup_ge_None _ _)) by lia. done.
Qed.

Lemma calculate_metrics_not_indexable (f1 f2 s1 s2 : list Z) :
  ~ metrics_indexable f1 f2 s2 ->
  calculate_metrics f1 f2 s1 s2 = Raise IndexError.
Proof.
  unfold metrics_indexable, calculate_metrics, calculate_delays. intros Hno.
  destruct (decide (f2 = [])) as [->|Hf2]; [done|].
  destruct (getitem_last_nonempty f2 Hf2) as (m & _ & ->).
  cbn [mbind result_bind].
  destruct (decide (f1 = [])) as [->|Hf1]; [done|].
  destruct (getitem_last_nonempty f1 Hf1) as (m1 & _ & ->).
  cbn [mbind result_bind].
  destruct s2 as [|d0 s2']; [done|].
  cbn [getitem lookup list_lookup mbind result_bind].
  destruct (delays_loop_cases (d0 :: s2') f2
              (range_from_1 (length (d0 :: s2'))) d0)
    as [[Hall _]|[_ ->]]; [| |done].
  { apply Forall_forall. intros i Hi. unfold range_from_1 in Hi.
    apply elem_of_seq in Hi. simpl in *. lia. }
  exfalso. apply Hno. repeat split; try done.
  destruct (decide (length (d0 :: s2') <= 1)%nat) as [?|Hbig]; [lia|].
  rewrite Forall_forall in Hall.
  specialize (Hall (length (d0 :: s2') - 1)%nat).
  unfold range_from_1 in Hall. rewrite elem_of_seq in Hall. lia.
Qed.

Lemma calculate_metrics_indexable (f1 f2 s1 s2 : list Z) :
  metrics_indexable f1 f2 s2 ->
  exists makespan last_m1,
    last f2 = Some makespan /\ last f1 = Some last_m1 /\
    calculate_metrics f1 f2 s1 s2 =
      (q1 ← true_div (makespan - last_m1) makespan;
       q2 ← true_div (delay_m2_formula s2 f2) makespan;
       Ok (makespan, makespan - last_m1, delay_m2_formula s2 f2,
           ((q1 + q2) / 2)%Q, (1 - (q1 + q2) / 2)%Q)).
Proof.
  intros (Hf1 & Hf2 & Hs2 & Hlen).
  destruct (getitem_last_nonempty f2 Hf2) as (m & Hm & Hgm).
  destruct (getitem_last_nonempty f1 Hf1) as (m1 & Hm1 & Hgm1).
  exists m, m1. split; [done|]. split; [done|].
  unfold calculate_metrics, calculate_delays.
  rewrite Hgm. cbn [mbind result_bind]. rewrite Hgm1. cbn [mbind result_bind].
  rewrite getitem_lt by (destruct s2; [done|simpl; lia]).
  cbn [mbind result_bind]. unfold range_from_1. rewrite delays_loop_spec.
  - done.
  - apply Forall_forall. intros i Hi. apply elem_of_seq in Hi. lia.
Qed.

(** The outcome of [calculate_metrics] on any four arrays.  It raises
    [IndexError] exactly when the arrays are not indexable.  On
    indexable arrays, with [makespan = finish_m2[-1]],
    [delay_m1 = makespan - finish_m1[-1]] and [delay_m2] the sum of
    [start_m2[0]] and the clamped gaps: it raises [ZeroDivisionError]
    exactly when the makespan is zero, [OverflowError] exactly when the
    makespan is not zero and one of the two quotients is beyond the
    range of a float, and returns, with that makespan and those delays,
    exactly in the remaining case.  The arrays need not have one common
    length, and [start_m1] is never read: any list can stand in its
    place. *)
Theorem calculate_metrics_domain (f1 f2 s1 s2 : list Z) :
  (~ metrics_indexable f1 f2 s2 <->
   calculate_metrics f1 f2 s1 s2 = Raise IndexError) /\
  (metrics_indexable f1 f2 s2 ->
   exists makespan last_m1,
     last f2 = Some makespan /\ last f1 = Some last_m1 /\
     let delay_m1 := makespan - last_m1 in
     let delay_m2 := delay_m2_formula s2 f2 in
     (makespan = 0 <->
      calculate_metrics f1 f2 s1 s2 = Raise ZeroDivisionError) /\
     (makespan <> 0 /\
      ~ (in_float_range delay_m1 makespan /\ in_float_range delay_m2 makespan) <->
      calculate_metrics f1 f2 s1 s2 = Raise OverflowError) /\
     (makespan <> 0 /\
      in_float_range delay_m1 makespan /\ in_float_range delay_m2 makespan <->
      exists average_delay utilization,
        calculate_metrics f1 f2 s1 s2 =
          Ok (makespan, delay_m1, delay_m2, average_delay, utilization))) /\
  (forall s1', calculate_metrics f1 f2 s1' s2 = calculate_metrics f1 f2 s1 s2).
Proof.
  assert (Hidx : metrics_indexable f1 f2 s2 ->
     exists makespan last_m1,
       last f2 = Some makespan /\ last f1 = Some last_m1 /\
       let delay_m1 := makespan - last_m1 in
       let delay_m2 := delay_m2_formula s2 f2 in
       (makespan = 0 /\
        calculate_metrics f1 f2 s1 s2 = Raise ZeroDivisionError) \/
       (makespan <> 0 /\
        ~ (in_float_range delay_m1 makespan /\
           in_float_range delay_m2 makespan) /\
        calculate_metrics f1 f2 s1 s2 = Raise OverflowError) \/
       (makespan <> 0 /\
        (in_float_range delay_m1 makespan /\
         in_float_range delay_m2 makespan) /\
        exists average_delay utilization,
          calculate_metrics f1 f2 s1 s2 =
            Ok (makespan, delay_m1, delay_m2, average_delay, utilization))).
  { intros Hi.
    destruct (calculate_metrics_indexable f1 f2 s1 s2 Hi)
      as (m & m1 & Hm & Hm1 & ->).
    exists m, m1. split; [done|]. split; [done|]. cbv zeta.
    destruct (decide (m = 0)) as [->|Hnz].
    { left. split; [done|]. unfold true_div. by rewrite decide_True. }
    right.
    destruct (decide (in_float_range (m - m1) m)) as [Hr1|Hr1].
    - rewrite (true_div_ok (m - m1)) by done. cbn [mbind result_bind].
      destruct (decide (in_float_range (delay_m2_formula s2 f2) m))
        as [Hr2|Hr2].
      + right. rewrite true_div_ok by done. cbn [mbind result_bind].
        split; [done|]. split; [done|]. eauto.
      + left. rewrite true_div_overflow by done.
        split; [done|]. split; [tauto|done].
    - left. rewrite (true_div_overflow (m - m1)) by done.
      split; [done|]. split; [tauto|done]. }
  split; [|split].
  - split; [apply calculate_metrics_not_indexable|].
    intros Hraise Hi. destruct (Hidx Hi) as (m & m1 & _ & _ & Hc).
    cbv zeta in Hc.
    destruct Hc as [[_ H]|[(_ & _ & H)|(_ & _ & a & u & H)]]; congruence.
  - intros Hi. destruct (Hidx Hi) as (m & m1 & Hm & Hm1 & Hc).
    exists m, m1. split; [done|]. split; [done|]. cbv zeta in Hc |- *.
    destruct Hc as [[Hz H]|[(Hnz & Hr & H)|(Hnz & Hr & a & u & H)]];
      (split; [|split]); split;
      try (intros; exfalso; (congruence || tauto));
      try (intros (? & ? & ?); congruence);
      try (intros [? ?]; exfalso; (congruence || tauto));
      try done; eauto.
  - done.
Qed.

(** ** How good a schedule can be *)

Lemma inject_Z_pos (m : Z) : 0 < m -> (0 < inject_Z m)%Q.
Proof. intros H. change 0%Q with (inject_Z 0). by rewrite <-Zlt_Qlt. Qed.

Lemma half_le_ratio (w m : Z) :
  0 < m -> m <= w -> (1 # 2 <= inject_Z w / inject_Z (2 * m))%Q.
Proof.
  intros Hm Hw. apply Qle_shift_div_l; [apply inject_Z_pos; lia|].
  unfold Qle, Qmult, inject_Z. simpl. lia.
Qed.

Lemma ratio_antitone (w m m' : Z) :
  0 <= w -> 0 < m -> m <= m' ->
  (inject_Z w / inject_Z (2 * m') <= inject_Z w / inject_Z (2 * m))%Q.
Proof.
  intros Hw Hm Hm'.
  apply Qle_shift_div_l; [apply inject_Z_pos; lia|].
  unfold Qdiv. rewrite <-Qmult_assoc, (Qmult_comm (/ _)), Qmult_assoc.
  apply Qle_shift_div_r; [apply inject_Z_pos; lia|].
  rewrite <-!inject_Z_mult, <-Zle_Qle. nia.
Qed.

Lemma Zsum_nonneg (l : list Z) : Forall (fun x => 0 <= x) l -> 0 <= Zsum l.
Proof. induction 1; rewrite ?Zsum_cons; [done|lia]. Qed.

(** Machine 2 is never later than all the work done one task after the
    other, once it is not later than machine 1 plus a slack [c]. *)
Lemma run_upper (jobs : list (Z * Z)) :
  Forall (fun t => 0 <= t.1 /\ 0 <= t.2) jobs ->
  forall t1 t2 c, 0 <= c -> t2 <= t1 + c ->
    (run (t1, t2) jobs).2 <= t1 + Zsum jobs.*1 + c + Zsum jobs.*2.
Proof.
  induction 1 as [|[a b] jobs [Ha Hb] _ IH]; intros t1 t2 c Hc Ht.
  - simpl. lia.
  - rewrite run_cons, !fmap_cons, !Zsum_cons. unfold advance.
    cbn [fst snd] in *.
    etrans; [apply (IH _ _ (c + b)); lia|]. lia.
Qed.

(** Machine 2 cannot end before it has done its own work. *)
Lemma run_machine2_lower (jobs : list (Z * Z)) :
  forall t1 t2, t2 + Zsum jobs.*2 <= (run (t1, t2) jobs).2.
Proof.
  induction jobs as [|[a b] jobs IH]; intros t1 t2.
  - simpl. lia.
  - rewrite run_cons, fmap_cons, Zsum_cons. unfold advance. cbn [fst snd].
    etrans; [|apply IH]. lia.
Qed.

Lemma nonneg_times_sums (processing_times : list (Z * Z)) :
  nonneg_times processing_times ->
  0 <= Zsum processing_times.*1 /\ 0 <= Zsum processing_times.*2.
Proof.
  intros H. split; apply Zsum_nonneg, Forall_fmap;
    (eapply Forall_impl; [exact H|]); by intros t [? ?].
Qed.

(** Whatever the order of the tasks, the schedule is never longer than
    doing all the work one task after the other: for a non-empty list of
    non-negative times and a valid sequence the makespan is at most
    [sum(p1) + sum(p2)], so whenever metrics are computed the average
    delay is at most one half and the utilization at least one half. *)
Theorem utilization_at_least_half
    (processing_times : list (Z * Z)) (sequence : list nat) :
  processing_times <> [] ->
  nonneg_times processing_times ->
  valid_sequence (length processing_times) sequence ->
  exists s1 f1 s2 f2 makespan,
    calculate_schedule processing_times sequence = Ok (s1, f1, s2, f2) /\
    getitem_last f2 = Ok makespan /\
    makespan <= Zsum processing_times.*1 + Zsum processing_times.*2 /\
    (0 < makespan ->
     exists delay_m1 delay_m2 average_delay utilization,
       calculate_metrics f1 f2 s1 s2 =
         Ok (makespan, delay_m1, delay_m2, average_delay, utilization) /\
       (average_delay <= 1 # 2)%Q /\ (1 # 2 <= utilization)%Q).
Proof.
  intros Hne Hnn Hvalid.
  destruct (simulated_metrics processing_times sequence Hne Hnn Hvalid)
    as (s1 & f1 & s2 & f2 & Hrun & _ & Hlast & Hmet).
  pose proof (jobs_of_valid _ _ Hvalid) as Hjobs.
  set (m := (run (0, 0) (jobs_of processing_times sequence)).2) in *.
  assert (Hup : m <= Zsum processing_times.*1 + Zsum processing_times.*2).
  { assert (Hj : Forall (fun t : Z * Z => 0 <= t.1 /\ 0 <= t.2)
                     (jobs_of processing_times sequence))
      by (unfold nonneg_times in Hnn; by rewrite Hjobs).
    unfold m. etrans; [apply (run_upper _ Hj 0 0 0); done|].
    rewrite (Zsum_Permutation (jobs_of processing_times sequence).*1
               processing_times.*1) by (by apply fmap_Permutation).
    rewrite (Zsum_Permutation (jobs_of processing_times sequence).*2
               processing_times.*2) by (by apply fmap_Permutation).
    lia. }
  exists s1, f1, s2, f2, m. split; [done|]. split; [done|]. split; [done|].
  intros Hpos. destruct (Hmet ltac:(lia)) as (a & u & Hcalc & Ha & Hu).
  exists (m - Zsum processing_times.*1), (m - Zsum processing_times.*2), a, u.
  split; [done|].
  assert (Hhalf : (1 # 2 <= u)%Q) by (rewrite Hu; by apply half_le_ratio).
  split; [|done]. rewrite Ha in Hhalf. lra.
Qed.

Lemma utilization_at_least_half_witness :
  let processing_times := [(4, 2); (1, 3)] in
  let sequence := [0; 1]%nat in
  (processing_times <> [] /\ nonneg_times processing_times /\
   valid_sequence (length processing_times) sequence) /\
  exists s1 f1 s2 f2 makespan,
    calculate_schedule processing_times sequence = Ok (s1, f1, s2, f2) /\
    getitem_last f2 = Ok makespan /\
    makespan <= 5 + 5 /\
    (0 < makespan ->
     exists delay_m1 delay_m2 average_delay utilization,
       calculate_metrics f1 f2 s1 s2 =
         Ok (makespan, delay_m1, delay_m2, average_delay, utilization) /\
       (average_delay <= 1 # 2)%Q /\ (1 # 2 <= utilization)%Q).
Proof.
  intros processing_times sequence.
  assert (H0 : processing_times <> []) by discriminate.
  assert (H1 : nonneg_times processing_times)
    by (repeat constructor; simpl; lia).
  assert (H2 : valid_sequence (length processing_times) sequence)
    by exact (Permutation_refl _).
  split; [exact (conj H0 (conj H1 H2))|].
  exact (utilization_at_least_half processing_times sequence H0 H1 H2).
Defined.

(** No ordering of the tasks beats the one of [johnsons_rule] on any
    metric: for a non-empty list of non-negative times that is not all
    zero and any permutation [other] of its indices, [calculate_metrics]
    returns for both schedules, and the sequencer's schedule has the
    smaller or equal makespan and delays and the larger or equal
    utilization. *)
Theorem johnsons_rule_best_metrics
    (processing_times : list (Z * Z)) (other : list nat) :
  nonneg_times processing_times ->
  Exists (fun t => t <> (0, 0)) processing_times ->
  valid_sequence (length processing_times) other ->
  exists sequence s1 f1 s2 f2 m d1 d2 a u s1' f1' s2' f2' m' d1' d2' a' u',
    johnsons_rule processing_times = Some (Ok sequence) /\
    calculate_schedule processing_times sequence = Ok (s1, f1, s2, f2) /\
    calculate_metrics f1 f2 s1 s2 = Ok (m, d1, d2, a, u) /\
    calculate_schedule processing_times other = Ok (s1', f1', s2', f2') /\
    calculate_metrics f1' f2' s1' s2' = Ok (m', d1', d2', a', u') /\
    0 < m /\ m <= m' /\ d1 <= d1' /\ d2 <= d2' /\ (u' <= u)%Q.
Proof.
  intros Hnn Hex Hother.
  assert (Hne : processing_times <> []).
  { intros ->. by apply Exists_nil in Hex. }
  destruct (johnsons_rule_johnson_sorted processing_times)
    as (sequence & Hseq & Hperm & Hsorted).
  destruct (simulated_metrics processing_times sequence Hne Hnn Hperm)
    as (s1 & f1 & s2 & f2 & Hrun & _ & Hlast & Hmet).
  destruct (simulated_metrics processing_times other Hne Hnn Hother)
    as (s1' & f1' & s2' & f2' & Hrun' & _ & Hlast' & Hmet').
  set (m := (run (0, 0) (jobs_of processing_times sequence)).2) in *.
  set (m' := (run (0, 0) (jobs_of processing_times other)).2) in *.
  assert (Hle : m <= m').
  { apply run_sorted_optimal; [done|].
    rewrite (jobs_of_valid _ _ Hperm). by apply jobs_of_valid. }
  assert (Hpos : 0 < m).
  { assert (0 <= m).
    { pose proof (run_machine2_lower (jobs_of processing_times sequence) 0 0) as Hlow.
      rewrite (Zsum_Permutation (jobs_of processing_times sequence).*2
                 processing_times.*2) in Hlow
        by (apply fmap_Permutation; by apply jobs_of_valid).
      destruct (nonneg_times_sums _ Hnn). unfold m. lia. }
    destruct (decide (m = 0)) as [Hz|Hnz]; [|lia].
    exfalso. eapply Exists_not_Forall; [|
      apply (zero_makespan_zero_times processing_times sequence s1 f1 s2 f2);
        [done|done|done|by rewrite Hlast, Hz]].
    eapply Exists_impl; [exact Hex|]. done. }
  destruct (Hmet ltac:(lia)) as (a & u & Hcalc & _ & Hu).
  destruct (Hmet' ltac:(lia)) as (a' & u' & Hcalc' & _ & Hu').
  do 19 eexists.
  split; [exact Hseq|]. split; [exact Hrun|]. split; [exact Hcalc|].
  split; [exact Hrun'|]. split; [exact Hcalc'|].
  split; [done|]. split; [done|]. split; [lia|]. split; [lia|].
  rewrite Hu, Hu'. apply ratio_antitone; [|done|done].
  destruct (nonneg_times_sums _ Hnn). lia.
Qed.

Lemma johnsons_rule_best_metrics_witness :
  let processing_times := [(4, 2); (1, 3)] in
  let other := [0; 1]%nat in
  (nonneg_times processing_times /\
   Exists (fun t => t <> (0, 0)) processing_times /\
   valid_sequence (length processing_times) other) /\
  exists sequence s1 f1 s2 f2 m d1 d2 a u s1' f1' s2' f2' m' d1' d2' a' u',
    johnsons_rule processing_times = Some (Ok sequence) /\
    calculate_schedule processing_times sequence = Ok (s1, f1, s2, f2) /\
    calculate_metrics f1 f2 s1 s2 = Ok (m, d1, d2, a, u) /\
    calculate_schedule processing_times other = Ok (s1', f1', s2', f2') /\
    calculate_metrics f1' f2' s1' s2' = Ok (m', d1', d2', a', u') /\
    0 < m /\ m <= m' /\ d1 <= d1' /\ d2 <= d2' /\ (u' <= u)%Q.
Proof.
  intros processing_times other.
  assert (H0 : nonneg_times processing_times)
    by (repeat constructor; simpl; lia).
  assert (H1 : Exists (fun t => t <> (0, 0)) processing_times)
    by (apply Exists_cons_hd; discriminate).
  assert (H2 : valid_sequence (length processing_times) other)
    by exact (Permutation_refl _).
  split; [exact (conj H0 (conj H1 H2))|].
  exact (johnsons_rule_best_metrics processing_times other H0 H1 H2).
Defined.

(** ** The Gantt chart *)

(** The middle of a bar that lies within the range of a float. *)
Lemma bar_middle_ok (start finish : list Z) (i : nat) :
  (i < length start)%nat -> (i < length finish)%nat ->
  0 <= start !!! i <= finish !!! i -> finish !!! i < float_limit ->
  bar_middle start finish i =
    Ok (inject_Z (start !!! i) +
        inject_Z (finish !!! i - start !!! i) / inject_Z 2)%Q.
Proof.
  intros Hs Hf Hle Hlim. unfold bar_middle.
  repeat (rewrite getitem_lt by lia; cbn [mbind result_bind]).
  rewrite true_div_ok by (unfold in_float_range; lia).
  cbn [mbind result_bind]. unfold float_of_int.
  rewrite decide_False by lia. done.
Qed.

Section GanttProofs.
Context {color : Type}.
Variable colors : list color.
Variables s1 f1 s2 f2 : list Z.
Variable n : nat.
Hypothesis colors_nonempty : colors <> [].
Hypothesis lengths : timing_length n (Timing s1 f1 s2 f2).
Hypothesis in_range :
  forall j, (j < n)%nat ->
    (0 <= s1 !!! j <= f1 !!! j /\ f1 !!! j < float_limit) /\
    (0 <= s2 !!! j <= f2 !!! j /\ f2 !!! j < float_limit).

(** The bar of position [j] on machine 1 and on machine 2. *)
Let bar1 (j : nat) : Z * Z := (s1 !!! j, f1 !!! j - s1 !!! j).
Let bar2 (j : nat) : Z * Z := (s2 !!! j, f2 !!! j - s2 !!! j).

Lemma gantt_body_spec (i idx : nat) :
  (i < n)%nat ->
  exists new,
    gantt_body colors s1 f1 s2 f2 i idx = Ok new /\
    bars_on 1 new = [bar1 i] /\ bars_on 0 new = [bar2 i] /\
    labels_on 1 new = [task_label idx] /\ labels_on 0 new = [task_label idx].
Proof.
  intros Hi. destruct lengths as (H1 & H2 & H3 & H4). simpl in *.
  assert (Hc : exists c, cycle_color colors i = Ok c).
  { unfold cycle_color. destruct colors as [|c0 cs] eqn:E; [done|].
    rewrite decide_False by (simpl; lia).
    destruct (lookup_lt_is_Some_2 (c0 :: cs) (i mod length (c0 :: cs)))
      as [c Hc]; [apply Nat.mod_upper_bound; simpl; lia|].
    exists c. by apply getitem_Some. }
  destruct Hc as [c Hc]. destruct (in_range i Hi) as [[? ?] [? ?]].
  unfold gantt_body, bar_of. rewrite Hc. cbn [mbind result_bind].
  rewrite !bar_middle_ok by lia.
  repeat (rewrite getitem_lt by lia; cbn [mbind result_bind]).
  eexists. split; [done|]. done.
Qed.

Lemma gantt_loop_spec (rest : list nat) :
  forall (i : nat) (drawn : list (artist color)),
    (i + length rest <= n)%nat ->
    exists arts,
      gantt_loop colors s1 f1 s2 f2 i rest drawn = Ok arts /\
      bars_on 1 arts = bars_on 1 drawn ++ (bar1 <$> seq i (length rest)) /\
      bars_on 0 arts = bars_on 0 drawn ++ (bar2 <$> seq i (length rest)) /\
      labels_on 1 arts = labels_on 1 drawn ++ (task_label <$> rest) /\
      labels_on 0 arts = labels_on 0 drawn ++ (task_label <$> rest).
Proof.
  induction rest as [|idx rest IH]; intros i drawn Hi.
  - exists drawn. simpl. by rewrite !app_nil_r.
  - simpl in Hi. cbn [gantt_loop].
    destruct (gantt_body_spec i idx ltac:(lia))
      as (new & Hbody & B1 & B0 & L1 & L0).
    rewrite Hbody. cbn [mbind result_bind].
    destruct (IH (S i) (drawn ++ new) ltac:(lia))
      as (arts & Hrun & E1 & E0 & T1 & T0).
    exists arts. split; [done|].
    unfold bars_on, labels_on in *.
    rewrite omap_app in E1. rewrite omap_app in E0.
    rewrite omap_app in T1. rewrite omap_app in T0.
    rewrite B1 in E1. rewrite B0 in E0. rewrite L1 in T1. rewrite L0 in T0.
    rewrite E1, E0, T1, T0. simpl. by rewrite <-!app_assoc.
Qed.

Lemma plot_gantt_spec (processing_times : list (Z * Z)) (sequence : list nat) :
  length sequence = n ->
  exists fig,
    plot_gantt colors processing_times sequence s1 f1 s2 f2 = Ok fig /\
    bars_on 1 (artists fig) = bar1 <$> seq 0 n /\
    bars_on 0 (artists fig) = bar2 <$> seq 0 n /\
    labels_on 1 (artists fig) = task_label <$> sequence /\
    labels_on 0 (artists fig) = task_label <$> sequence.
Proof.
  intros Hn. unfold plot_gantt.
  destruct (gantt_loop_spec sequence 0 []) as (arts & Hrun & E1 & E0 & T1 & T0);
    [lia|].
  rewrite Hrun. cbn [mbind result_bind]. eexists. split; [done|].
  simpl. rewrite E1, E0, T1, T0, Hn. done.
Qed.
End GanttProofs.

Lemma lookup_fmap_seq {A} (f : nat -> A) (n i : nat) (x : A) :
  (f <$> seq 0 n) !! i = Some x <-> (i < n)%nat /\ x = f i.
Proof.
  rewrite list_lookup_fmap, fmap_Some. setoid_rewrite lookup_seq. simpl.
  split; [intros (k & [-> ?] & ->); done|intros [? ->]; by exists i].
Qed.

(** With non-negative times whose sum stays below the range of a float,
    every timestamp of a simulated schedule does. *)
Lemma schedule_timestamps_in_range
    (processing_times : list (Z * Z)) (sequence : list nat)
    (s1 f1 s2 f2 : list Z) :
  nonneg_times processing_times ->
  valid_sequence (length processing_times) sequence ->
  Zsum processing_times.*1 + Zsum processing_times.*2 < float_limit ->
  calculate_schedule processing_times sequence = Ok (s1, f1, s2, f2) ->
  forall j, (j < length sequence)%nat ->
    (0 <= s1 !!! j <= f1 !!! j /\ f1 !!! j < float_limit) /\
    (0 <= s2 !!! j <= f2 !!! j /\ f2 !!! j < float_limit).
Proof.
  intros Hnn Hvalid Hsum Hrun j Hj.
  destruct (calculate_schedule_run processing_times sequence)
    as (s1' & f1' & s2' & f2' & Hrun' & Hlen & Hrows & _ & Hlast);
    [by apply valid_sequence_in_range|lia|].
  rewrite Hrun in Hrun'. simplify_eq.
  set (n := length sequence) in *.
  pose proof (jobs_of_valid _ _ Hvalid) as Hjobs.
  assert (Hup : (run (0, 0) (jobs_of processing_times sequence)).2 < float_limit).
  { assert (Hjn : Forall (fun t : Z * Z => 0 <= t.1 /\ 0 <= t.2)
                     (jobs_of processing_times sequence))
      by (unfold nonneg_times in Hnn; by rewrite Hjobs).
    eapply Z.le_lt_trans; [apply (run_upper _ Hjn 0 0 0); done|].
    rewrite (Zsum_Permutation (jobs_of processing_times sequence).*1
               processing_times.*1) by (by apply fmap_Permutation).
    rewrite (Zsum_Permutation (jobs_of processing_times sequence).*2
               processing_times.*2) by (by apply fmap_Permutation).
    lia. }
  destruct Hlen as (_ & _ & _ & H4). simpl in H4.
  rewrite getitem_last_lt, H4 in Hlast by lia. injection Hlast as Hlast.
  pose proof (timestamps_bounded processing_times sequence s1' f1' s2' f2' n
                Hnn Hrows j Hj) as Hb.
  pose proof (row_order processing_times sequence s1' f1' s2' f2' n
                Hnn Hrows j Hj) as Ho.
  cbv zeta in Hb. rewrite Hlast in Hb. lia.
Qed.

(** The chart of a simulated schedule shows the schedule.  For
    non-negative times whose sum is within the range of a float, a valid
    sequence and a non-empty colour table, [plot_gantt] on the arrays of
    [calculate_schedule] returns a figure with one bar and one label per
    task on each track; the bars at position [i] carry the label and the
    two processing times of task [sequence[i]] as widths; the bars of
    machine 1 start at 0 and follow each other without gap or overlap;
    the bars of machine 2 do not overlap; and no bar of machine 2 starts
    before the bar of the same task on machine 1 ends. *)
Theorem gantt_chart_of_schedule {color} (colors : list color)
    (processing_times : list (Z * Z)) (sequence : list nat) :
  colors <> [] ->
  nonneg_times processing_times ->
  Zsum processing_times.*1 + Zsum processing_times.*2 < float_limit ->
  valid_sequence (length processing_times) sequence ->
  exists s1 f1 s2 f2 fig,
    calculate_schedule processing_times sequence = Ok (s1, f1, s2, f2) /\
    plot_gantt colors processing_times sequence s1 f1 s2 f2 = Ok fig /\
    let b1 := bars_on 1 (artists fig) in
    let b2 := bars_on 0 (artists fig) in
    length b1 = length sequence /\ length b2 = length sequence /\
    labels_on 1 (artists fig) = task_label <$> sequence /\
    labels_on 0 (artists fig) = task_label <$> sequence /\
    (forall i l w, b1 !! i = Some (l, w) ->
       exists idx p1 p2,
         sequence !! i = Some idx /\ processing_times !! idx = Some (p1, p2) /\
         w = p1 /\ 0 <= w /\ (i = 0%nat -> l = 0) /\
         (forall l' w', b1 !! S i = Some (l', w') -> l' = l + w)) /\
    (forall i l w, b2 !! i = Some (l, w) ->
       exists idx p1 p2,
         sequence !! i = Some idx /\ processing_times !! idx = Some (p1, p2) /\
         w = p2 /\ 0 <= w /\
         (forall l' w', b2 !! S i = Some (l', w') -> l + w <= l') /\
         (forall l1 w1, b1 !! i = Some (l1, w1) -> l1 + w1 <= l)).
Proof.
  intros Hcol Hnn Hsum Hvalid.
  destruct (calculate_schedule_spec processing_times sequence
              (valid_sequence_in_range _ _ Hvalid))
    as (s1 & f1 & s2 & f2 & Hrun & Hlen & Hrows).
  destruct (plot_gantt_spec colors s1 f1 s2 f2 (length sequence) Hcol Hlen
              (schedule_timestamps_in_range _ _ _ _ _ _ Hnn Hvalid Hsum Hrun)
              processing_times sequence eq_refl)
    as (fig & Hfig & B1 & B0 & L1 & L0).
  exists s1, f1, s2, f2, fig. split; [done|]. split; [done|].
  cbv zeta. rewrite B1, B0.
  split; [by rewrite length_fmap, length_seq|].
  split; [by rewrite length_fmap, length_seq|].
  split; [done|]. split; [done|].
  unfold nonneg_times in Hnn. rewrite Forall_lookup in Hnn.
  split.
  - intros i l w Hb. apply lookup_fmap_seq in Hb as [Hi Hb]. simplify_eq.
    destruct (Hrows i Hi) as (idx & p1 & p2 & Hs & Hpt & E1 & E2 & _).
    simpl in *. destruct (Hnn _ _ Hpt) as [? _]. simpl in *.
    exists idx, p1, p2. split; [done|]. split; [done|].
    split; [lia|]. split; [lia|]. split.
    + intros ->. by rewrite E1.
    + intros l' w' Hb'. apply lookup_fmap_seq in Hb' as [Hi' Hb']. simplify_eq.
      destruct (Hrows (S i) Hi') as (? & ? & ? & _ & _ & E1' & _).
      simpl in E1'. lia.
  - intros i l w Hb. apply lookup_fmap_seq in Hb as [Hi Hb]. simplify_eq.
    destruct (Hrows i Hi) as (idx & p1 & p2 & Hs & Hpt & _ & _ & E3 & E4).
    simpl in *. destruct (Hnn _ _ Hpt) as [_ ?]. simpl in *.
    exists idx, p1, p2. split; [done|]. split; [done|].
    split; [lia|]. split; [lia|]. split.
    + intros l' w' Hb'. apply lookup_fmap_seq in Hb' as [Hi' Hb']. simplify_eq.
      destruct (Hrows (S i) Hi') as (? & ? & ? & _ & _ & _ & _ & E3' & _).
      simpl in E3'. lia.
    + intros l1 w1 Hb1. apply lookup_fmap_seq in Hb1 as [_ Hb1]. simplify_eq.
      lia.
Qed.

Lemma gantt_chart_of_schedule_witness :
  let colors := [true; false] in
  let processing_times := [(4, 2); (1, 3)] in
  let sequence := [1; 0]%nat in
  (colors <> [] /\ nonneg_times processing_times /\
   Zsum processing_times.*1 + Zsum processing_times.*2 < float_limit /\
   valid_sequence (length processing_times) sequence) /\
  exists s1 f1 s2 f2 fig,
    calculate_schedule processing_times sequence = Ok (s1, f1, s2, f2) /\
    plot_gantt colors processing_times sequence s1 f1 s2 f2 = Ok fig /\
    bars_on 1 (artists fig) = [(0, 1); (1, 4)] /\
    bars_on 0 (artists fig) = [(1, 3); (5, 2)] /\
    labels_on 1 (artists fig) = ["T2"; "T1"].
Proof.
  intros colors processing_times sequence.
  assert (H0 : colors <> []) by discriminate.
  assert (H1 : nonneg_times processing_times)
    by (repeat constructor; simpl; lia).
  assert (H2 : valid_sequence (length processing_times) sequence)
    by (apply perm_swap).
  assert (H3 : Zsum processing_times.*1 + Zsum processing_times.*2 < float_limit)
    by (vm_compute; reflexivity).
  split; [exact (conj H0 (conj H1 (conj H3 H2)))|].
  destruct (gantt_chart_of_schedule colors processing_times sequence H0 H1 H3 H2)
    as (s1 & f1 & s2 & f2 & fig & Hrun & Hfig & _).
  exists s1, f1, s2, f2, fig. split; [exact Hrun|]. split; [exact Hfig|].
  vm_compute in Hrun. injection Hrun as <- <- <- <-.
  vm_compute in Hfig. injection Hfig as <-. repeat split.
Defined.
